(** * Scroll progress and active-section navigation of the portfolio site

  A shallow embedding of

  - [src/hooks/useScrollProgress.ts]  (hooks [useScrollProgress] and
    [useScrollSection]),
  - [src/components/Navigation/Navigation.tsx]  (component [Navigation]),
  - [src/pages/Home/HomePage.tsx]  (component [HomePage]),
  - the earlier [App.jsx] and [Hero.jsx]  (section tracker, typing
    animation),
  - the project demos [CheckoutDemo], [AdminPanelDemo], [TaskFlowDemo] and
    [LandingBuilderDemo],

  and the properties of the scroll engine stated over it.

  Conventions.  Lengths are CSS pixels.  The values the browser hands to
  the code (scroll offset, viewport height, layout rectangles) are finite
  and are modelled as rationals [Q] with exact arithmetic.  The result of
  a JavaScript division is a [JS.number], which adds the two infinities
  and NaN to the rationals, so that a division by zero is visible in the
  model.  Signed zeros are identified: every zero divisor in the modelled
  code is the difference of two finite values, which is [+0] in IEEE
  arithmetic.

  The rounding of IEEE doubles matters to [useScrollSection], whose
  result is compared with 0 and 1 and across scroll offsets.  Module
  [Rounded] embeds its [calculateProgress] with the rounding of every
  operation written out, and module [Binary64] evaluates the same
  arithmetic on binary64 numbers. *)

From Stdlib Require Import QArith Qminmax Qround Lqa Ascii String List Bool Arith Lia.
From Stdlib Require Import Permutation.
From Stdlib Require PrimFloat.
Import ListNotations.

Local Open Scope string_scope.
Local Open Scope list_scope.
Local Open Scope Q_scope.

(* ------------------------------------------------------------------ *)
(** * JavaScript values and control                                    *)
(* ------------------------------------------------------------------ *)

Module JS.

(** A JavaScript number whose finite values are exact rationals. *)
Inductive number : Type :=
| Fin (q : Q)
| PosInf
| NegInf
| NaN.

(** Equality of numbers as values: rationals up to [Qeq].  (This is the
    equality of the model, under which NaN is NaN; it is not [===].) *)
Definition num_eq (a b : number) : Prop :=
  match a, b with
  | Fin p, Fin q => p == q
  | PosInf, PosInf => True
  | NegInf, NegInf => True
  | NaN, NaN => True
  | _, _ => False
  end.

(** [lo <= a <= hi] as JavaScript evaluates it: false on NaN. *)
Definition between (lo hi : Q) (a : number) : bool :=
  match a with
  | Fin q => Qle_bool lo q && Qle_bool q hi
  | _ => false
  end.

(** [a <= b] on numbers; every comparison with NaN is false. *)
Definition le (a b : number) : bool :=
  match a, b with
  | NaN, _ | _, NaN => false
  | NegInf, _ => true
  | _, PosInf => true
  | Fin p, Fin q => Qle_bool p q
  | _, _ => false
  end.

(** [a / b] for finite operands.  A zero divisor gives an infinity of
    the sign of the dividend, and NaN for [0 / 0]. *)
Definition div (a b : Q) : number :=
  if Qeq_bool b 0
  then match a ?= 0 with
       | Eq => NaN
       | Lt => NegInf
       | Gt => PosInf
       end
  else Fin (a / b).

Definition qmin (p q : Q) : Q := if Qle_bool p q then p else q.
Definition qmax (p q : Q) : Q := if Qle_bool p q then q else p.

(** [Math.min(a, b)]: NaN if either argument is NaN. *)
Definition Math_min (a b : number) : number :=
  match a, b with
  | NaN, _ | _, NaN => NaN
  | NegInf, _ | _, NegInf => NegInf
  | PosInf, x | x, PosInf => x
  | Fin p, Fin q => Fin (qmin p q)
  end.

(** [Math.max(a, b)]: NaN if either argument is NaN. *)
Definition Math_max (a b : number) : number :=
  match a, b with
  | NaN, _ | _, NaN => NaN
  | PosInf, _ | _, PosInf => PosInf
  | NegInf, x | x, NegInf => x
  | Fin p, Fin q => Fin (qmax p q)
  end.

(** Truthiness of a string: only the empty string is falsy. *)
Definition truthy (s : string) : bool :=
  match s with EmptyString => false | String _ _ => true end.

(** [s.substring(1)]: the string without its first character. *)
Definition substring1 (s : string) : string :=
  match s with EmptyString => EmptyString | String _ rest => rest end.

(** ** Completions: a handler returns normally or throws *)

Inductive error : Type :=
| TypeError (msg : string)
| SyntaxError (msg : string).

Inductive completion (A : Type) : Type :=
| Normal (a : A)
| Throw (e : error).
Arguments Normal {A} a.
Arguments Throw {A} e.

(** A handler over component state [S]: state passing with errors. *)
Definition Handler (S A : Type) : Type := S -> completion (A * S).

Definition ret {S A} (a : A) : Handler S A := fun s => Normal (a, s).

Definition bind {S A B} (m : Handler S A) (k : A -> Handler S B)
  : Handler S B :=
  fun s => match m s with
           | Normal (a, s') => k a s'
           | Throw e => Throw e
           end.

Definition throw {S A} (e : error) : Handler S A := fun _ => Throw e.

Definition get {S} : Handler S S := fun s => Normal (s, s).
Definition put {S} (s : S) : Handler S unit := fun _ => Normal (tt, s).

(** The state a handler leaves behind, when it returns. *)
Definition exec {S A} (m : Handler S A) (s : S) : completion S :=
  match m s with
  | Normal (_, s') => Normal s'
  | Throw e => Throw e
  end.

(** [!o] for an object-or-null [o]. *)
Definition is_null {A} (o : option A) : bool :=
  match o with Some _ => false | None => true end.

(** [o.m(...)] on a possibly-null receiver: a TypeError on null. *)
Definition member {S A B} (o : option A) (m : A -> Handler S B)
  : Handler S B :=
  match o with
  | Some a => m a
  | None => throw (TypeError "Cannot read properties of null")
  end.

(** [o?.m(...)]: optional chaining, nothing happens on null. *)
Definition optional {S A} (o : option A) (m : A -> Handler S unit)
  : Handler S unit :=
  match o with
  | Some a => m a
  | None => ret tt
  end.

End JS.

Notation "x <- m ;; k" := (JS.bind m (fun x => k))
(at level 61, m at next level, right associativity).
Notation "m ;;; k" := (JS.bind m (fun _ => k))
(at level 61, right associativity).

(* ------------------------------------------------------------------ *)
(** * The browser as the code reads it                                 *)
(* ------------------------------------------------------------------ *)

Import JS.

Module DOM.

(** A bounding client rectangle: [top] is relative to the viewport. *)
Record DOMRect : Type := mkRect { top : Q; height : Q }.

Definition bottom (r : DOMRect) : Q := top r + height r.

Record Element : Type := mkElement { id : string; rect : DOMRect }.

(** A snapshot of what a handler reads during one event: the scroll
    offset, the viewport height, [document.documentElement.scrollHeight]
    and the mounted elements in document order. *)
Record Window : Type := mkWindow {
  scrollY : Q;
  innerHeight : Q;
  scrollHeight : Q;
  document : list Element
}.

(** [document.getElementById]: the first element with that id. *)
Definition getElementById (doc : list Element) (i : string)
  : option Element :=
  find (fun e => String.eqb (id e) i) doc.

Definition getBoundingClientRect (e : Element) : DOMRect := rect e.

(** [document.querySelector] as the code calls it, with an id selector
    ["#" ++ ident]; the bare selector "#" is a syntax error. *)
Definition querySelector (doc : list Element) (selector : string)
  : completion (option Element) :=
  match substring1 selector with
  | EmptyString => Throw (SyntaxError selector)
  | ident => Normal (getElementById doc ident)
  end.

(** ** Events and listeners *)

Inductive EventType : Type := scroll | resize | click.

Definition EventType_eqb (a b : EventType) : bool :=
  match a, b with
  | scroll, scroll | resize, resize | click, click => true
  | _, _ => false
  end.

(** A listener table as [addEventListener] builds it. *)
Definition Listeners (S : Type) : Type :=
  list (EventType * (Window -> Handler S unit)).

(** Dispatching an event runs the listeners registered for its type, in
    registration order. *)
Fixpoint dispatchEvent {S} (ls : Listeners S) (ty : EventType) (w : Window)
  : Handler S unit :=
  match ls with
  | [] => ret tt
  | (ty', handler) :: rest =>
      if EventType_eqb ty' ty
      then handler w ;;; dispatchEvent rest ty w
      else dispatchEvent rest ty w
  end.

(** ** What the code asks of the browser *)

Inductive ScrollBehavior : Type := smooth | instant.

(** Vertical alignment of [scrollIntoView]: [start] puts the top of the
    element at the top of the viewport. *)
Inductive ScrollLogicalPosition : Type := start | center | end_ | nearest.

Inductive Command : Type :=
| ScrollIntoView (target : Element) (behavior : ScrollBehavior)
    (block : ScrollLogicalPosition)
| Navigate (to : string).

(** The closures handed to [setTimeout], as data: the closure of
    [HomePage] with the fragment id it captured. *)
Inductive Closure : Type :=
| ScrollToFragment (id : string).

Record Browser : Type := mkBrowser {
  clock : nat;                        (* milliseconds *)
  pending : list (nat * Closure);     (* timers, with the time they are due *)
  performed : list Command;           (* commands issued so far, in order *)
  defaultPrevented : bool             (* of the event being dispatched *)
}.

Definition freshBrowser (now : nat) : Browser :=
  mkBrowser now [] [] false.

Definition issue (c : Command) : Handler Browser unit :=
  fun b => Normal (tt, mkBrowser (clock b) (pending b)
                         (performed b ++ [c]) (defaultPrevented b)).

(** [element.scrollIntoView({ behavior })]; [block] defaults to [start]. *)
Definition scrollIntoView (element : Element) (behavior : ScrollBehavior)
  : Handler Browser unit :=
  issue (ScrollIntoView element behavior start).

(** [setTimeout(closure, delay)]. *)
Definition setTimeout (closure : Closure) (delay : nat)
  : Handler Browser unit :=
  fun b => Normal (tt, mkBrowser (clock b)
                         (pending b ++ [(clock b + delay, closure)%nat])
                         (performed b) (defaultPrevented b)).

(** [event.preventDefault()]. *)
Definition preventDefault : Handler Browser unit :=
  fun b => Normal (tt, mkBrowser (clock b) (pending b) (performed b) true).

(** A new event starts with its default action not prevented. *)
Definition beginEvent : Handler Browser unit :=
  fun b => Normal (tt, mkBrowser (clock b) (pending b) (performed b) false).

Fixpoint runAll (run : Closure -> Handler Browser unit)
  (cs : list (nat * Closure)) : Handler Browser unit :=
  match cs with
  | [] => ret tt
  | (_, c) :: rest => run c ;;; runAll run rest
  end.

(** Time passes by [dt] milliseconds; the timers that are due by then run,
    in the order they were set, with [run] the body of the closures. *)
Definition advance (run : Closure -> Handler Browser unit) (dt : nat)
  : Handler Browser unit :=
  fun b =>
    let now := (clock b + dt)%nat in
    let due := filter (fun t => fst t <=? now)%nat (pending b) in
    let later := filter (fun t => negb (fst t <=? now)%nat) (pending b) in
    runAll run due
      (mkBrowser now later (performed b) (defaultPrevented b)).

(** The scroll offset at which [block: start] leaves an element found at
    [rect] in the snapshot [w]: its top in document coordinates. *)
Definition alignedScrollY (w : Window) (e : Element) : Q :=
  scrollY w + top (rect e).

(** The rectangle of an element once the window has scrolled to [y]. *)
Definition rectAfterScroll (w : Window) (y : Q) (e : Element) : DOMRect :=
  mkRect (top (rect e) - (y - scrollY w)) (height (rect e)).

End DOM.

Import DOM.

(* ------------------------------------------------------------------ *)
(** * hooks/useScrollProgress.ts                                       *)
(* ------------------------------------------------------------------ *)

Module ScrollProgress.

(** ** [useScrollProgress]: the state is the number [scrollProgress],
    initially 0 *)

Definition initialScrollProgress : number := Fin 0.

Definition setScrollProgress (p : number) : Handler number unit := put p.

Definition calculateScrollProgress (w : Window) : Handler number unit :=
  let windowHeight := innerHeight w in
  let documentHeight := scrollHeight w - windowHeight in
  let scrolled := scrollY w in
  let progress := Math_min (div scrolled documentHeight) (Fin 1) in
  setScrollProgress progress.

(** The value the hook returns once an event has been handled. *)
Definition documentProgress (w : Window) : completion number :=
  exec (calculateScrollProgress w) initialScrollProgress.

(** ** [useScrollSection sectionId]: the state is the number [progress],
    initially 0 *)


Definition setProgress (p : number) : Handler number unit := put p.

Definition calculateProgress (sectionId : string) (w : Window)
  : Handler number unit :=
  let section := getElementById (document w) sectionId in
  if is_null section then ret tt
  else
    member section (fun section =>
      let rect := getBoundingClientRect section in
      let sectionTop := top rect + scrollY w in
      let sectionHeight := height rect in
      let windowHeight := innerHeight w in
      let scrollY := scrollY w in
      let start := sectionTop - windowHeight in
      let end_ := sectionTop + sectionHeight in
      let scrollRange := end_ - start in
      let currentScroll := scrollY - start in
      let sectionProgress :=
        Math_max (Fin 0) (Math_min (Fin 1) (div currentScroll scrollRange)) in
      setProgress sectionProgress).

(** The progress after one evaluation, starting from [last]. *)
Definition sectionProgress (sectionId : string) (w : Window)
  (last : number) : completion number :=
  exec (calculateProgress sectionId w) last.

(** ** The formulas of the specification, over the rationals *)

Definition clamp (x lo hi : Q) : Q := Qmax lo (Qmin x hi).

Definition documentProgress_spec (scrollY documentHeight viewportHeight : Q)
  : Q :=
  if Qle_bool (documentHeight - viewportHeight) 0 then 0
  else clamp (scrollY / (documentHeight - viewportHeight)) 0 1.

Definition sectionProgress_spec
  (scrollY viewportHeight sectionTop sectionHeight : Q) : Q :=
  let start := sectionTop - viewportHeight in
  let end_ := sectionTop + sectionHeight in
  let range := end_ - start in
  clamp ((scrollY - start) / range) 0 1.

End ScrollProgress.

(* ------------------------------------------------------------------ *)
(** * Elements rendered by React and react-router                      *)
(* ------------------------------------------------------------------ *)

Module React.

(** The two kinds of control the navigation bar renders.  A [button]
    outside a form has no default action; a react-router [Link] calls its
    [onClick] and then navigates to [to] unless the handler prevented the
    default action. *)
Inductive Control : Type :=
| button (className : string) (onClick : Window -> Handler Browser unit)
| Link (to : string) (className : string)
    (onClick : Window -> Handler Browser unit).

Definition className (c : Control) : string :=
  match c with
  | button cls _ => cls
  | Link _ cls _ => cls
  end.

(** The [href] attribute of the rendered DOM node, if it has one. *)
Definition href (c : Control) : option string :=
  match c with
  | button _ _ => None
  | Link to _ _ => Some to
  end.

Definition clickControl (c : Control) (w : Window) : Handler Browser unit :=
  beginEvent ;;;
  match c with
  | button _ onClick => onClick w
  | Link to _ onClick =>
      onClick w ;;;
      b <- get ;;
      if defaultPrevented b then ret tt else issue (Navigate to)
  end.

End React.

(* ------------------------------------------------------------------ *)
(** * utils/scrollTo                                                   *)
(* ------------------------------------------------------------------ *)

Module Utils.

(** Modelled from the spec: [utils/scrollTo.ts], which Navigation.tsx
    imports as [scrollTo], is not among the sources.  The specification
    has it smoothly scroll the viewport so that the top of the target
    section aligns with the top (native smooth-scroll semantics), and
    silently skip the scroll when no mounted element has the id. *)
Definition scrollTo (w : Window) (sectionId : string)
  : Handler Browser unit :=
  let element := getElementById (document w) sectionId in
  optional element (fun element => scrollIntoView element smooth).

End Utils.

(* ------------------------------------------------------------------ *)
(** * components/Navigation/Navigation.tsx                             *)
(* ------------------------------------------------------------------ *)

Module Navigation.

Record NavItem : Type := mkItem { id : string; label : string }.

Definition navItems : list NavItem :=
  [ mkItem "hero" "Home";
    mkItem "work" "Work";
    mkItem "experience" "Experience";
    mkItem "skills" "Skills";
    mkItem "blog" "Blog";
    mkItem "contact" "Contact" ].

(** The two [useState] cells of the component. *)
Record State : Type := mkState { scrolled : bool; activeSection : string }.

Definition initialState : State := mkState false "hero".

Definition setScrolled (v : bool) : Handler State unit :=
  fun st => Normal (tt, mkState v (activeSection st)).

Definition setActiveSection (v : string) : Handler State unit :=
  fun st => Normal (tt, mkState (scrolled st) v).

Definition isHomePage (pathname : string) : bool :=
  String.eqb pathname "/".

(** The probe of [handleScroll]: [rect.top <= 150 && rect.bottom >= 150]. *)
Definition probe (rect : DOMRect) : bool :=
  Qle_bool (top rect) 150 && Qle_bool 150 (bottom rect).

(** The component closes over the module constant [navItems].  The
    functions below take the list as [items], so that the worked example
    of the specification, whose sections are called A, B and C, runs
    through the same code. *)
Section Items.

Variable items : list NavItem.

(** [for (const sectionId of sections) { ... break; ... }] *)
Fixpoint forOfSections (w : Window) (sections : list string)
  : Handler State unit :=
  match sections with
  | [] => ret tt
  | sectionId :: rest =>
      let element := getElementById (document w) sectionId in
      if is_null element then forOfSections w rest
      else
        member element (fun element =>
          let rect := getBoundingClientRect element in
          if probe rect
          then setActiveSection sectionId          (* break *)
          else forOfSections w rest)
  end.

Definition handleScroll (isHomePage : bool) (w : Window)
  : Handler State unit :=
  setScrolled (negb (Qle_bool (scrollY w) 50)) ;;;
  if isHomePage then
    let sections := map id items in
    forOfSections w sections
  else ret tt.

(** The effect attaches [handleScroll] to 'scroll', and to nothing else. *)
Definition listeners (isHomePage : bool) : Listeners State :=
  [ (scroll, handleScroll isHomePage) ].

Definition handleNavClick (isHomePage : bool) (sectionId : string)
  (w : Window) : Handler Browser unit :=
  if isHomePage then Utils.scrollTo w sectionId
  else ret tt.

(** The list [<ul className="nav-links">] of the rendered component. *)
Definition render (isHomePage : bool) (st : State) : list React.Control :=
  map (fun item =>
         if isHomePage
         then React.button
                ("nav-link " ++
                 (if String.eqb (activeSection st) (id item)
                  then "active" else ""))
                (handleNavClick isHomePage (id item))
         else React.Link
                ("/#" ++ id item)
                "nav-link"
                (handleNavClick isHomePage (id item)))
      items.

(** A control carries the highlight when its class list has 'active'. *)
Definition isActive (c : React.Control) : bool :=
  String.eqb (React.className c) "nav-link active".

(** ** The mounted component over time

    [Navigation] is rendered by the layout that wraps every route, so its
    state outlives a change of location from one route to another.  The
    router has no catch-all route: at a location that matches none, the
    [errorElement] of the root replaces the layout and the component is
    unmounted; [LocationChange] does not model that, and stands for a
    change between '/' and 'projects/:projectId'. *)

Record Mounted : Type := mkMounted { pathname : string; state : State }.

Inductive Event : Type :=
| WindowEvent (ty : EventType) (w : Window)
| LocationChange (pathname : string).

Definition mount (pathname : string) : Mounted :=
  mkMounted pathname initialState.

Definition step (m : Mounted) (ev : Event) : completion Mounted :=
  match ev with
  | WindowEvent ty w =>
      match exec (dispatchEvent (listeners (isHomePage (pathname m))) ty w)
                 (state m) with
      | Normal st => Normal (mkMounted (pathname m) st)
      | Throw e => Throw e
      end
  | LocationChange p => Normal (mkMounted p (state m))
  end.

Fixpoint run (m : Mounted) (evs : list Event) : completion Mounted :=
  match evs with
  | [] => Normal m
  | ev :: rest =>
      match step m ev with
      | Normal m' => run m' rest
      | Throw e => Throw e
      end
  end.

End Items.

(** A scroll or resize event, as opposed to any other event. *)
Definition isScrollOrResize (ev : Event) : bool :=
  match ev with
  | WindowEvent scroll _ | WindowEvent resize _ => true
  | _ => false
  end.

End Navigation.

(* ------------------------------------------------------------------ *)
(** * pages/Home/HomePage.tsx                                          *)
(* ------------------------------------------------------------------ *)

Module HomePage.

Definition liftCompletion {S A} (c : completion A) : Handler S A :=
  fun s => match c with
           | Normal a => Normal (a, s)
           | Throw e => Throw e
           end.

(** The document-level 'click' listener; [href] is
    [target.getAttribute('href')]. *)
Definition handleSmoothScroll (href : option string) (w : Window)
  : Handler Browser unit :=
  match href with
  | Some href =>
      if String.prefix "#" href then
        preventDefault ;;;
        element <- liftCompletion (querySelector (document w) href) ;;
        optional element (fun element => scrollIntoView element smooth)
      else ret tt
  | None => ret tt
  end.

(** The effect on [location]: hash navigation from other pages. *)
Definition hashEffect (hash : string) : Handler Browser unit :=
  if truthy hash then
    let id := substring1 hash in
    setTimeout (ScrollToFragment id) 100
  else ret tt.

(** The body of the closure given to [setTimeout], run in the window as
    it is when the timer fires. *)
Definition runClosure (w : Window) (c : Closure) : Handler Browser unit :=
  match c with
  | ScrollToFragment id =>
      let element := getElementById (document w) id in
      optional element (fun element => scrollIntoView element smooth)
  end.

End HomePage.

(* ------------------------------------------------------------------ *)
(** * The page as the router assembles it                              *)
(* ------------------------------------------------------------------ *)

Module App.

(** [HomePage] is the index route: it is mounted exactly at "/". *)
Definition homePageMounted (pathname : string) : bool :=
  String.eqb pathname "/".

(** A click on the [n]-th control of the navigation bar: the control's
    own handling, then the document-level listener of [HomePage] when
    that page is mounted. *)
Definition clickNavItem (pathname : string) (st : Navigation.State)
  (n : nat) (w : Window) : Handler Browser unit :=
  let controls :=
    Navigation.render Navigation.navItems
      (Navigation.isHomePage pathname) st in
  match nth_error controls n with
  | Some control =>
      React.clickControl control w ;;;
      if homePageMounted pathname
      then HomePage.handleSmoothScroll (React.href control) w
      else ret tt
  | None => ret tt
  end.

End App.

(* ------------------------------------------------------------------ *)
(** * The two hooks over the life of a component                       *)
(* ------------------------------------------------------------------ *)

Module Hooks.

(** A sequence of window events delivered to a listener table, each with
    the window as it is when its listeners run. *)
Fixpoint deliver {S} (ls : Listeners S) (evs : list (EventType * Window))
  : Handler S unit :=
  match evs with
  | [] => ret tt
  | (ty, w) :: rest => dispatchEvent ls ty w ;;; deliver ls rest
  end.

(** The effect of [useScrollProgress] attaches its callback to 'scroll'
    and to 'resize'. *)
Definition scrollProgressListeners : Listeners number :=
  [ (scroll, ScrollProgress.calculateScrollProgress);
    (resize, ScrollProgress.calculateScrollProgress) ].

(** The value [useScrollProgress] returns after it mounted in the window
    [w0] (the effect calls the callback once) and the events [evs]
    happened. *)
Definition useScrollProgress (w0 : Window) (evs : list (EventType * Window))
  : completion number :=
  exec (ScrollProgress.calculateScrollProgress w0 ;;;
        deliver scrollProgressListeners evs)
       ScrollProgress.initialScrollProgress.



End Hooks.

(* ------------------------------------------------------------------ *)
(** * Locations, as react-router reads them                            *)
(* ------------------------------------------------------------------ *)

Module Router.

Record Path : Type := mkPath {
  pathname : string;
  search : string;
  hash : string
}.

(** The part of [s] before the first [c], and the part from that [c] on
    when there is one ([indexOf] and [substr]). *)
Fixpoint splitAtChar (c : Ascii.ascii) (s : string) : string * option string :=
  match s with
  | EmptyString => (EmptyString, None)
  | String a rest =>
      if Ascii.eqb a c then (EmptyString, Some s)
      else let (before, from) := splitAtChar c rest in
           (String a before, from)
  end.

(** [parsePath]: the hash is split off at the first '#', then the search
    at the first '?'; a part that is missing is empty. *)
Definition parsePath (path : string) : Path :=
  let (path1, h) := splitAtChar "#"%char path in
  let (path2, q) := splitAtChar "?"%char path1 in
  mkPath path2
    (match q with Some q => q | None => "" end)
    (match h with Some h => h | None => "" end).

End Router.

(* ------------------------------------------------------------------ *)
(** * components/Hero.jsx: the typing animation                        *)
(* ------------------------------------------------------------------ *)

Module LegacyHero.

(** The three [useState] cells. *)
Record State : Type := mkState {
  displayedText : string;
  currentIndex : nat;
  showCursor : bool
}.

(** The state of [useState], which the effect that runs on mount sets
    once more. *)
Definition initialState : State := mkState "" 0 true.

(** [fullText[i]] as an operand of [+]: the character at [i], and the
    text "undefined" past the end. *)
Definition charAt (s : string) (i : nat) : string :=
  match String.get i s with
  | Some c => String c ""
  | None => "undefined"
  end.

(** The timer that the effect of a render leaves pending: a timeout whose
    closure captured [currentIndex], or the interval of the cursor. *)
Inductive Timer : Type :=
| Timeout (delay : nat) (capturedIndex : nat)
| Interval (period : nat).

Definition wait (t : Timer) : nat :=
  match t with
  | Timeout delay _ => delay
  | Interval period => period
  end.

Section Typing.

Variable fullText : string.

(** The effect on [currentIndex, fullText]. *)
Definition effect (st : State) : Timer :=
  if (currentIndex st <? String.length fullText)%nat
  then Timeout 50 (currentIndex st)
  else Interval 500.

(** What the callback of the timer does to the state. *)
Definition fire (t : Timer) (st : State) : State :=
  match t with
  | Timeout _ capturedIndex =>
      mkState (displayedText st ++ charAt fullText capturedIndex)
              (currentIndex st + 1) (showCursor st)
  | Interval _ =>
      mkState (displayedText st) (currentIndex st) (negb (showCursor st))
  end.

(** The pending timer fires: the time it took, and the next state. *)
Definition tick (c : nat * State) : nat * State :=
  let t := effect (snd c) in
  ((fst c + wait t)%nat, fire t (snd c)).

Fixpoint ticks (n : nat) (c : nat * State) : nat * State :=
  match n with
  | O => c
  | S n => ticks n (tick c)
  end.

End Typing.

Definition fullText : string :=
  "Full-Stack Engineer specialized in Go, Web3, and Distributed Systems.".

End LegacyHero.

(* ------------------------------------------------------------------ *)
(** * components/ProjectDemos/CheckoutDemo.tsx                         *)
(* ------------------------------------------------------------------ *)

Module CheckoutDemo.

(** The state cell [step], a number that starts at 1. *)
Definition initialStep : Z := 1%Z.

Definition handleNext (step : Z) : Z :=
  if (step <? 3)%Z then (step + 1)%Z else step.

Definition handleBack (step : Z) : Z :=
  if (1 <? step)%Z then (step - 1)%Z else step.

Inductive Click : Type := Next | Back.

Definition click (step : Z) (c : Click) : Z :=
  match c with
  | Next => handleNext step
  | Back => handleBack step
  end.

Definition clicks (cs : list Click) (step : Z) : Z := fold_left click cs step.

(** ** [formatCardNumber]

    A string is a list of UTF-16 code units, whatever they are: the two
    regular expressions only ask of a unit whether [\s] matches it and
    whether [.] does not (the line terminators). *)
Section CardNumber.

Variable char : Type.
Variable isWhitespace : char -> bool.
Variable isLineTerminator : char -> bool.
Variable space : char.

(** [value.replace(/\s/g, '')] *)
Definition stripWhitespace (value : list char) : list char :=
  filter (fun c => negb (isWhitespace c)) value.

(** The matches of [/.{1,4}/g] in [s], left to right, where [group] holds
    the units of the match in progress: a match ends when it has four
    units, at a line terminator, or at the end of the string. *)
Fixpoint matchGroups (s : list char) (group : list char)
  : list (list char) :=
  match s with
  | [] => match group with [] => [] | _ => [group] end
  | c :: rest =>
      if isLineTerminator c
      then match group with
           | [] => matchGroups rest []
           | _ => group :: matchGroups rest []
           end
      else if (length (group ++ [c]) =? 4)%nat
           then (group ++ [c]) :: matchGroups rest []
           else matchGroups rest (group ++ [c])
  end.

(** [s.match(/.{1,4}/g)]: null when nothing matches. *)
Definition matchAll (s : list char) : option (list (list char)) :=
  match matchGroups s [] with
  | [] => None
  | groups => Some groups
  end.

(** [groups.join(' ')] *)
Fixpoint join (groups : list (list char)) : list char :=
  match groups with
  | [] => []
  | [g] => g
  | g :: rest => g ++ space :: join rest
  end.

(** [value.replace(/\s/g, '').match(/.{1,4}/g)?.join(' ') || value] *)
Definition formatCardNumber (value : list char) : list char :=
  match matchAll (stripWhitespace value) with
  | Some groups =>
      match join groups with
      | [] => value
      | joined => joined
      end
  | None => value
  end.

(** The [onChange] of the card field:
    [formatCardNumber(e.target.value.slice(0, 19))]. *)
Definition onCardNumberChange (value : list char) : list char :=
  formatCardNumber (firstn 19 value).

End CardNumber.

End CheckoutDemo.

(* ------------------------------------------------------------------ *)
(** * components/ProjectDemos/AdminPanelDemo.tsx                       *)
(* ------------------------------------------------------------------ *)

Module AdminPanelDemo.

Inductive Status : Type := active | inactive.

Record User : Type := mkUser {
  id : Z;
  name : string;
  email : string;
  role : string;
  status : Status
}.

Definition Status_eqb (a b : Status) : bool :=
  match a, b with
  | active, active | inactive, inactive => true
  | _, _ => false
  end.

Definition toggleUserStatus (i : Z) (users : list User) : list User :=
  map (fun user =>
         if (id user =? i)%Z
         then mkUser (id user) (name user) (email user) (role user)
                (if Status_eqb (status user) active then inactive else active)
         else user)
      users.

Section Filter.

(** [text.toLowerCase().includes(term.toLowerCase())], whatever the
    lower-casing of the engine does. *)
Variable includesIgnoringCase : string -> string -> bool.

Definition filteredUsers (searchTerm selectedRole : string)
  (users : list User) : list User :=
  filter (fun user =>
            let matchesSearch :=
              includesIgnoringCase (name user) searchTerm
              || includesIgnoringCase (email user) searchTerm in
            let matchesRole :=
              String.eqb selectedRole "all"
              || String.eqb (role user) selectedRole in
            matchesSearch && matchesRole)
         users.

End Filter.

End AdminPanelDemo.

(* ------------------------------------------------------------------ *)
(** * components/ProjectDemos/TaskFlowDemo.tsx                         *)
(* ------------------------------------------------------------------ *)

Module TaskFlowDemo.

Inductive Status : Type := todo | inProgress | done.

Definition Status_eqb (a b : Status) : bool :=
  match a, b with
  | todo, todo | inProgress, inProgress | done, done => true
  | _, _ => false
  end.

Record Task : Type := mkTask {
  id : string;
  title : string;
  description : string;
  status : Status;
  priority : string;
  assignee : string;
  tags : list string
}.

(** The two [useState] cells. *)
Record State : Type := mkState {
  tasks : list Task;
  draggedTask : option Task
}.

Definition handleDragStart (task : Task) (st : State) : State :=
  mkState (tasks st) (Some task).

(** [onDragEnd={() => setDraggedTask(null)}] *)
Definition handleDragEnd (st : State) : State :=
  mkState (tasks st) None.

Definition handleDrop (s : Status) (st : State) : State :=
  match draggedTask st with
  | None => st
  | Some dragged =>
      mkState
        (map (fun task =>
                if String.eqb (id task) (id dragged)
                then mkTask (id task) (title task) (description task) s
                       (priority task) (assignee task) (tags task)
                else task)
             (tasks st))
        None
  end.

Definition getTasksByStatus (s : Status) (st : State) : list Task :=
  filter (fun task => Status_eqb (status task) s) (tasks st).

(** What the user does to the board. *)
Inductive Gesture : Type :=
| DragStart (task : Task)
| DragEnd
| Drop (s : Status).

Definition gesture (st : State) (g : Gesture) : State :=
  match g with
  | DragStart task => handleDragStart task st
  | DragEnd => handleDragEnd st
  | Drop s => handleDrop s st
  end.

Definition gestures (gs : list Gesture) (st : State) : State :=
  fold_left gesture gs st.

End TaskFlowDemo.

(* ------------------------------------------------------------------ *)
(** * components/ProjectDemos/LandingBuilderDemo.tsx                   *)
(* ------------------------------------------------------------------ *)

Module LandingBuilderDemo.

Inductive BlockType : Type := hero | cta | text.

Record Block : Type := mkBlock {
  id : string;
  type : BlockType;
  content : string
}.

Definition initialBlocks : list Block :=
  [ mkBlock "1" hero "Your Amazing Product";
    mkBlock "2" text "Transform your business with our innovative solution.";
    mkBlock "3" cta "Get Started Now" ].

(** The two [useState] cells. *)
Record State : Type := mkState {
  blocks : list Block;
  selectedBlock : option string
}.

Definition initialState : State := mkState initialBlocks None.

(** [addBlock(type)], where [now] is [Date.now().toString()]. *)
Definition addBlock (now : string) (t : BlockType) (st : State) : State :=
  let newBlock :=
    mkBlock now t
      (match t with
       | hero => "New Heading"
       | cta => "Button Text"
       | text => "New paragraph text"
       end) in
  mkState (blocks st ++ [newBlock]) (selectedBlock st).

Definition updateBlock (i : string) (c : string) (st : State) : State :=
  mkState
    (map (fun block =>
            if String.eqb (id block) i
            then mkBlock (id block) (type block) c
            else block)
         (blocks st))
    (selectedBlock st).

Definition deleteBlock (i : string) (st : State) : State :=
  mkState
    (filter (fun block => negb (String.eqb (id block) i)) (blocks st))
    (match selectedBlock st with
     | Some s => if String.eqb s i then None else Some s
     | None => None
     end).

(** [onReorder={setBlocks}] *)
Definition reorder (newOrder : list Block) (st : State) : State :=
  mkState newOrder (selectedBlock st).

(** What the user does on the canvas.  The clicks are on the [n]-th block
    as it is rendered; the delete button and the inputs stop the
    propagation of their clicks, so that only a click on the block itself
    selects it. *)
Inductive Action : Type :=
| Add (now : string) (t : BlockType)
| ClickBlock (n : nat)
| Edit (n : nat) (c : string)
| ClickDelete (n : nat)
| Reorder (newOrder : list Block).

Definition act (st : State) (a : Action) : State :=
  match a with
  | Add now t => addBlock now t st
  | ClickBlock n =>
      match nth_error (blocks st) n with
      | Some block => mkState (blocks st) (Some (id block))
      | None => st
      end
  | Edit n c =>
      match nth_error (blocks st) n with
      | Some block => updateBlock (id block) c st
      | None => st
      end
  | ClickDelete n =>
      match nth_error (blocks st) n with
      | Some block => deleteBlock (id block) st
      | None => st
      end
  | Reorder newOrder => reorder newOrder st
  end.

End LandingBuilderDemo.

(* ------------------------------------------------------------------ *)
(** * App.jsx: the earlier section tracker                             *)
(* ------------------------------------------------------------------ *)

Module LegacyApp.

(** An element as this tracker reads it: [offsetTop] and [offsetHeight]
    are integers, in document coordinates. *)
Record Element : Type := mkElement {
  id : string;
  offsetTop : Z;
  offsetHeight : Z
}.

Definition getElementById (doc : list Element) (i : string)
  : option Element :=
  find (fun e => String.eqb (id e) i) doc.

Definition sections : list string :=
  [ "hero"; "about"; "experience"; "projects"; "blog"; "contact" ].

(** [scrollPosition >= offsetTop && scrollPosition < offsetTop + offsetHeight] *)
Definition contains (element : Element) (scrollPosition : Q) : bool :=
  Qle_bool (inject_Z (offsetTop element)) scrollPosition
  && negb (Qle_bool (inject_Z (offsetTop element + offsetHeight element))
             scrollPosition).

(** The state cell [activeSection]. *)
Definition setActiveSection (v : string) : Handler string unit := put v.

Fixpoint forOfSections (doc : list Element) (scrollPosition : Q)
  (sections : list string) : Handler string unit :=
  match sections with
  | [] => ret tt
  | section :: rest =>
      let element := getElementById doc section in
      if is_null element then forOfSections doc scrollPosition rest
      else
        member element (fun element =>
          if contains element scrollPosition
          then setActiveSection section            (* break *)
          else forOfSections doc scrollPosition rest)
  end.

Definition handleScroll (scrollY : Q) (doc : list Element)
  : Handler string unit :=
  let scrollPosition := scrollY + 100 in
  forOfSections doc scrollPosition sections.

End LegacyApp.

(* ------------------------------------------------------------------ *)
(** * useScrollSection in rounded arithmetic                           *)
(* ------------------------------------------------------------------ *)

(** JavaScript numbers are IEEE doubles: the result of an addition, a
    subtraction or a division is the exact result rounded to a double.
    Here [calculateProgress] is embedded once more with that rounding
    written out, [round] being the rounding of a rational to a double.
    Overflow is left out: lengths in pixels are far below the largest
    double. *)
Module Rounded.

Section Arithmetic.

Variable round : Q -> Q.

Definition add (a b : Q) : Q := round (a + b).

Definition sub (a b : Q) : Q := round (a - b).

Definition div (a b : Q) : number :=
  if Qeq_bool b 0
  then match a ?= 0 with
       | Eq => NaN
       | Lt => NegInf
       | Gt => PosInf
       end
  else Fin (round (a / b)).

Definition calculateProgress (sectionId : string) (w : Window)
  : Handler number unit :=
  let section := getElementById (document w) sectionId in
  if is_null section then ret tt
  else
    member section (fun section =>
      let rect := getBoundingClientRect section in
      let sectionTop := add (top rect) (scrollY w) in
      let sectionHeight := height rect in
      let windowHeight := innerHeight w in
      let scrollY := scrollY w in
      let start := sub sectionTop windowHeight in
      let end_ := add sectionTop sectionHeight in
      let scrollRange := sub end_ start in
      let currentScroll := sub scrollY start in
      let sectionProgress :=
        Math_max (Fin 0) (Math_min (Fin 1) (div currentScroll scrollRange)) in
      ScrollProgress.setProgress sectionProgress).

(** The progress after one evaluation, starting from [last]. *)
Definition sectionProgress (sectionId : string) (w : Window)
  (last : number) : completion number :=
  exec (calculateProgress sectionId w) last.

End Arithmetic.

End Rounded.

(* ------------------------------------------------------------------ *)
(** * useScrollSection on binary64 numbers                             *)
(* ------------------------------------------------------------------ *)

(** The arithmetic of [calculateProgress] on the kernel's binary64
    numbers, to evaluate it as a JavaScript engine does. *)
Module Binary64.

Import PrimFloat.

Local Open Scope float_scope.

(** [Math.min(a, b)]: NaN if either is NaN, and -0 below +0. *)
Definition Math_min (a b : float) : float :=
  if is_nan a then a
  else if is_nan b then b
  else if a <? b then a
  else if b <? a then b
  else if is_zero a && get_sign a then a
  else b.

(** [Math.max(a, b)]: NaN if either is NaN, and +0 above -0. *)
Definition Math_max (a b : float) : float :=
  if is_nan a then a
  else if is_nan b then b
  else if a <? b then b
  else if b <? a then a
  else if is_zero a && negb (get_sign a) then a
  else b.

(** The value that [calculateProgress] hands to [setProgress] for a
    section with the bounding rectangle [rectTop], [rectHeight]. *)
Definition sectionProgressValue (rectTop rectHeight innerHeight scrollY : float)
  : float :=
  let sectionTop := rectTop + scrollY in
  let sectionHeight := rectHeight in
  let windowHeight := innerHeight in
  let start := sectionTop - windowHeight in
  let end_ := sectionTop + sectionHeight in
  let scrollRange := end_ - start in
  let currentScroll := scrollY - start in
  Math_max 0 (Math_min 1 (currentScroll / scrollRange)).

(** The two sides of the premise 'the top of the section is at
    [scrollY + viewportHeight]', as doubles. *)
Definition sectionTop (rectTop scrollY : float) : float := rectTop + scrollY.

Definition entryLine (innerHeight scrollY : float) : float :=
  scrollY + innerHeight.

(** Lengths used below: 0, 800 and 1000 pixels, and three tenths of a
    pixel (the double nearest to 0.3). *)
Definition zero : float := 0.

Definition eightHundred : float := 800.

Definition oneThousand : float := 1000.

Definition threeTenths : float := 0x1.3333333333333p-2.

End Binary64.

(* ------------------------------------------------------------------ *)
(** * Predicates and layouts used in the statements                    *)
(* ------------------------------------------------------------------ *)

Import ScrollProgress.
Import Navigation.

(** The window of a page that exactly fills an 800 pixel viewport. *)
Definition filledWindow : Window := mkWindow 0 800 800 [].

(** A page of 600 pixels in a viewport of 600 pixels, at the top. *)
Definition unscrollableWindow : Window := mkWindow 0 600 600 [].

(** A viewport of 1000 pixels scrolled to 600, with a section 'work' of
    height 800 whose top is 1000 pixels below the top of the viewport:
    the section is just about to enter. *)
Definition enteringWindow : Window :=
  mkWindow 600 1000 4000 [ mkElement "work" (mkRect 1000 800) ].

(** The section [s] is mounted and the probe line, 150 pixels below the
    top of the viewport, lies within it. *)
Definition probed (w : Window) (s : string) : Prop :=
  exists e, getElementById (document w) s = Some e /\
            top (rect e) <= 150 /\ 150 <= bottom (rect e).

(** Three stacked sections A (0-800), B (800-1600), C (1600-2400) seen
    through a viewport of 1000 pixels scrolled to [y]. *)
Definition itemsABC : list NavItem :=
  [ mkItem "A" "A"; mkItem "B" "B"; mkItem "C" "C" ].

Definition stacked (y : Q) : Window :=
  mkWindow y 1000 2400
    [ mkElement "A" (mkRect (0 - y) 800);
      mkElement "B" (mkRect (800 - y) 800);
      mkElement "C" (mkRect (1600 - y) 800) ].

(** The probe line is below the last section: the page of 2400 pixels
    scrolled so far that every section has left the probe line. *)
Definition pastTheEnd : Window :=
  mkWindow 2300 1000 2400
    [ mkElement "hero" (mkRect (-2300) 800);
      mkElement "work" (mkRect (-1500) 800);
      mkElement "contact" (mkRect (-700) 800) ].

(** The root page with the contact section 3200 pixels down. *)
Definition contactWindow : Window :=
  mkWindow 0 1000 4000 [ mkElement "contact" (mkRect 3200 800) ].

(** The root page as it is 100 milliseconds after mounting, with the blog
    section laid out. *)
Definition settledWindow : Window :=
  mkWindow 0 1000 5000 [ mkElement "blog" (mkRect 2600 900) ].

(** The events the two hooks listen to. *)
Definition tracked (ty : EventType) : bool :=
  match ty with
  | scroll | resize => true
  | click => false
  end.

(** The window of the last scroll or resize event of [evs], and [w0] when
    there is none. *)
Fixpoint latestWindow (w0 : Window) (evs : list (EventType * Window))
  : Window :=
  match evs with
  | [] => w0
  | (ty, w) :: rest => latestWindow (if tracked ty then w else w0) rest
  end.



(** A section of height 600 whose top is [t] pixels below the top of a
    viewport of height 1000. *)
Definition sectionAt (t : Q) : Window :=
  mkWindow 0 1000 4000 [ mkElement "work" (mkRect t 600) ].

(** What [calculateScrollProgress] stores for a window. *)
Definition progressValue (w : Window) : number :=
  Math_min (div (scrollY w) (scrollHeight w - innerHeight w)) (Fin 1).


(** [probed], as a test: the section is mounted and under the probe line. *)
Definition probedb (w : Window) (s : string) : bool :=
  match getElementById (document w) s with
  | Some e => probe (rect e)
  | None => false
  end.

(** The events that can change the state of [Navigation] or its
    location: scroll events and changes of location. *)
Definition reachesNavigation (ev : Event) : bool :=
  match ev with
  | WindowEvent scroll _ => true
  | WindowEvent _ _ => false
  | LocationChange _ => true
  end.

(** The scroll commands that the closure of [HomePage] issues for a
    fragment in a window: one when an element has the id, none otherwise. *)
Definition scrollsFor (w : Window) (fragment : string) : list Command :=
  match getElementById (document w) fragment with
  | Some element => [ScrollIntoView element smooth start]
  | None => []
  end.

(** Identifiers made of ASCII letters, digits, '-' and '_' that start with
    a letter or '_': for these the selector ["#" ++ ident] is well formed
    and selects by id. *)
Definition identStart (c : Ascii.ascii) : bool :=
  let n := Ascii.nat_of_ascii c in
  ((65 <=? n) && (n <=? 90) || (97 <=? n) && (n <=? 122) || (n =? 95))%nat.

Definition identChar (c : Ascii.ascii) : bool :=
  let n := Ascii.nat_of_ascii c in
  (identStart c || (48 <=? n) && (n <=? 57) || (n =? 45))%nat.

Fixpoint allChars (p : Ascii.ascii -> bool) (s : string) : bool :=
  match s with
  | EmptyString => true
  | String c rest => p c && allChars p rest
  end.

Definition cssIdent (s : string) : bool :=
  match s with
  | EmptyString => false
  | String c rest => identStart c && allChars identChar rest
  end.

(** The root page with the sections work and contact laid out. *)
Definition homeWindow : Window :=
  mkWindow 0 1000 5000
    [ mkElement "work" (mkRect 1400 900);
      mkElement "contact" (mkRect 3200 800) ].

(** A string in which [\s] matches nothing. *)
Definition withoutWhitespace {char : Type} (isWhitespace : char -> bool)
  (s : list char) : Prop :=
  Forall (fun c => isWhitespace c = false) s.

(** The code units of the witnesses: 8-bit characters, of which the line
    feed and the carriage return are line terminators, and these, the
    tab and the space are whitespace. *)
Definition asciiLineTerminator (c : ascii) : bool :=
  Ascii.eqb c "010" || Ascii.eqb c "013".

Definition asciiWhitespace (c : ascii) : bool :=
  asciiLineTerminator c || Ascii.eqb c "009" || Ascii.eqb c " ".

Definition formatAscii (value : string) : list ascii :=
  CheckoutDemo.formatCardNumber ascii asciiWhitespace asciiLineTerminator
    " "%char (list_ascii_of_string value).

(** What a task card shows besides the column it is in. *)
Definition taskCard (t : TaskFlowDemo.Task)
  : string * string * string * string * string * list string :=
  (TaskFlowDemo.id t, TaskFlowDemo.title t, TaskFlowDemo.description t,
   TaskFlowDemo.priority t, TaskFlowDemo.assignee t, TaskFlowDemo.tags t).

(** The selection of the landing-page builder is empty or the id of a
    block on the canvas. *)
Definition selectionOnCanvas (st : LandingBuilderDemo.State) : Prop :=
  match LandingBuilderDemo.selectedBlock st with
  | Some s =>
      In s (map LandingBuilderDemo.id (LandingBuilderDemo.blocks st))
  | None => True
  end.

(** An action that the canvas can produce in a state: what a reordering
    hands to [onReorder] is a permutation of the blocks. *)
Definition possibleAction (st : LandingBuilderDemo.State)
  (a : LandingBuilderDemo.Action) : Prop :=
  match a with
  | LandingBuilderDemo.Reorder newOrder =>
      Permutation newOrder (LandingBuilderDemo.blocks st)
  | _ => True
  end.

Fixpoint possibleActions (st : LandingBuilderDemo.State)
  (acts : list LandingBuilderDemo.Action) : Prop :=
  match acts with
  | [] => True
  | a :: rest =>
      possibleAction st a /\
      possibleActions (LandingBuilderDemo.act st a) rest
  end.

(** Sections laid out one under the other without gaps, the first with
    its top [t] pixels below the top of the viewport: [secs] gives their
    ids and heights, and each id finds an element with that rectangle. *)
Fixpoint laidOut (doc : list Element) (t : Q) (secs : list (string * Q))
  : Prop :=
  match secs with
  | [] => True
  | (i, h) :: rest =>
      (exists e, getElementById doc i = Some e /\
                 top (rect e) == t /\ height (rect e) == h) /\
      laidOut doc (t + h) rest
  end.

Definition totalHeight (secs : list (string * Q)) : Q :=
  fold_right (fun s acc => snd s + acc) 0 secs.

(** The same for the earlier tracker, in document coordinates. *)
Fixpoint laidOutZ (doc : list LegacyApp.Element) (t : Z)
  (secs : list (string * Z)) : Prop :=
  match secs with
  | [] => True
  | (i, h) :: rest =>
      LegacyApp.getElementById doc i = Some (LegacyApp.mkElement i t h) /\
      laidOutZ doc (t + h)%Z rest
  end.

Definition totalHeightZ (secs : list (string * Z)) : Z :=
  fold_right (fun s acc => (snd s + acc)%Z) 0%Z secs.

(** The earlier page: six sections of 900 pixels from the top down. *)
Definition legacyPage : list LegacyApp.Element :=
  [ LegacyApp.mkElement "hero" 0 900;
    LegacyApp.mkElement "about" 900 900;
    LegacyApp.mkElement "experience" 1800 900;
    LegacyApp.mkElement "projects" 2700 900;
    LegacyApp.mkElement "blog" 3600 900;
    LegacyApp.mkElement "contact" 4500 900 ].

(** A whole number of pixels, of a size at which the sums and differences
    that [calculateProgress] forms stay below 2^53 = 9007199254740992 and
    so are doubles. *)
Definition wholePixels (q : Q) : Prop :=
  exists z : Z, q == inject_Z z /\ (Z.abs z <= 1125899906842624)%Z.

(** A rounding for the witnesses: to the multiple of 2^-60 below. *)
Definition roundDown60 (q : Q) : Q :=
  inject_Z (Qfloor (q * inject_Z 1152921504606846976))
  / inject_Z 1152921504606846976.

(** A section without height in a viewport without height. *)
Definition collapsedWindow : Window :=
  mkWindow 0 0 4000 [ mkElement "work" (mkRect 0 0) ].

(** One segment of a path: not empty, and without a slash. *)
Fixpoint noSlash (s : string) : bool :=
  match s with
  | EmptyString => true
  | String c rest => negb (Ascii.eqb c "/") && noSlash rest
  end.

Definition isSegment (s : string) : bool :=
  negb (String.eqb s "") && noSlash s.

(** A location of the route 'projects/:projectId', the one child of the
    layout besides the index. *)
Definition detailPath (projectId : string) : string :=
  ("/projects/" ++ projectId)%string.

(* ------------------------------------------------------------------ *)
(** * Facts about JavaScript numbers                                   *)
(* ------------------------------------------------------------------ *)

Lemma div_finite (a b : Q) : ~ b == 0 -> div a b = Fin (a / b).
Proof.
  intros Hb. unfold div.
  destruct (Qeq_bool b 0) eqn:E; [| reflexivity].
  apply Qeq_bool_iff in E. contradiction.
Qed.

Lemma div_zero_zero (a b : Q) : a == 0 -> b == 0 -> div a b = NaN.
Proof.
  intros Ha Hb. unfold div.
  apply Qeq_bool_iff in Hb. rewrite Hb.
  apply Qeq_alt in Ha. now rewrite Ha.
Qed.

Lemma qmin_Qmin (p q : Q) : qmin p q == Qmin p q.
Proof.
  unfold qmin. destruct (Qle_bool p q) eqn:E.
  - apply Qle_bool_iff in E. symmetry. now apply Q.min_l.
  - assert (H : ~ p <= q) by (rewrite <- Qle_bool_iff, E; discriminate).
    symmetry. apply Q.min_r. apply Qlt_le_weak. now apply Qnot_le_lt.
Qed.

Lemma qmax_Qmax (p q : Q) : qmax p q == Qmax p q.
Proof.
  unfold qmax. destruct (Qle_bool p q) eqn:E.
  - apply Qle_bool_iff in E. symmetry. now apply Q.max_r.
  - assert (H : ~ p <= q) by (rewrite <- Qle_bool_iff, E; discriminate).
    symmetry. apply Q.max_l. apply Qlt_le_weak. now apply Qnot_le_lt.
Qed.

Lemma clamp_unit_range (x : Q) :
  0 <= ScrollProgress.clamp x 0 1 <= 1.
Proof.
  unfold ScrollProgress.clamp. split.
  - apply Q.le_max_l.
  - apply Q.max_lub; [discriminate | apply Q.le_min_r].
Qed.

Lemma clamp_monotone (x y : Q) :
  x <= y -> ScrollProgress.clamp x 0 1 <= ScrollProgress.clamp y 0 1.
Proof.
  intros H. unfold ScrollProgress.clamp.
  apply Q.max_le_compat_l. now apply Q.min_le_compat_r.
Qed.


(* ------------------------------------------------------------------ *)
(** * useScrollProgress                                                *)
(* ------------------------------------------------------------------ *)

(** The hook always returns, with [Math.min(scrollY / range, 1)]. *)
Lemma documentProgress_value (w : Window) :
  documentProgress w =
  Normal (Math_min (div (scrollY w) (scrollHeight w - innerHeight w)) (Fin 1)).
Proof. reflexivity. Qed.

(** Whenever the document is exactly as tall as the viewport and nothing
    is scrolled, the quotient is [0 / 0]. *)
Lemma documentProgress_zero_range (w : Window) :
  scrollHeight w == innerHeight w -> scrollY w == 0 ->
  documentProgress w = Normal NaN.
Proof.
  intros Hh Hy. rewrite documentProgress_value.
  rewrite (div_zero_zero _ _ Hy); [reflexivity |].
  rewrite Hh. ring.
Qed.

(** On a document taller than the viewport, scrolled to a non-negative
    offset, the hook computes the clamped ratio of the specification. *)
Lemma documentProgress_scrollable (w : Window) :
  innerHeight w < scrollHeight w ->
  0 <= scrollY w ->
  exists p,
    documentProgress w = Normal (Fin p) /\
    p == documentProgress_spec (scrollY w) (scrollHeight w) (innerHeight w).
Proof.
  intros Hd Hy.
  assert (Hpos : 0 < scrollHeight w - innerHeight w).
  { rewrite <- (Qplus_opp_r (innerHeight w)).
    apply Qplus_lt_l with (z := innerHeight w). ring_simplify. exact Hd. }
  assert (Hnz : ~ scrollHeight w - innerHeight w == 0).
  { intros E. rewrite E in Hpos. discriminate. }
  exists (qmin (scrollY w / (scrollHeight w - innerHeight w)) 1). split.
  - rewrite documentProgress_value, (div_finite _ _ Hnz). reflexivity.
  - unfold documentProgress_spec.
    destruct (Qle_bool (scrollHeight w - innerHeight w) 0) eqn:E.
    + apply Qle_bool_iff in E. exfalso.
      exact (Qlt_irrefl 0 (Qlt_le_trans _ _ _ Hpos E)).
    + unfold clamp. rewrite qmin_Qmin. symmetry. apply Q.max_r.
      apply Q.min_glb; [| discriminate].
      apply Qle_shift_div_l; [exact Hpos |]. now ring_simplify.
Qed.

(** With the layout fixed and the document taller than the viewport, the
    progress does not decrease when the scroll offset grows. *)
Lemma documentProgress_monotone (ih sh y1 y2 : Q) (doc : list Element) :
  ih < sh -> 0 <= y1 -> y1 <= y2 ->
  exists p1 p2,
    documentProgress (mkWindow y1 ih sh doc) = Normal (Fin p1) /\
    documentProgress (mkWindow y2 ih sh doc) = Normal (Fin p2) /\
    p1 <= p2 /\ 0 <= p1 /\ p2 <= 1.
Proof.
  intros Hd Hy0 Hy.
  assert (Hy2 : 0 <= y2) by now apply Qle_trans with y1.
  destruct (documentProgress_scrollable (mkWindow y1 ih sh doc) Hd Hy0)
    as (p1 & E1 & Q1).
  destruct (documentProgress_scrollable (mkWindow y2 ih sh doc) Hd Hy2)
    as (p2 & E2 & Q2).
  cbn [scrollY innerHeight scrollHeight] in Q1, Q2.
  assert (Hpos : 0 < sh - ih).
  { rewrite <- (Qplus_opp_r ih).
    apply Qplus_lt_l with (z := ih). ring_simplify. exact Hd. }
  exists p1, p2. repeat split; trivial.
  - rewrite Q1, Q2. unfold documentProgress_spec.
    destruct (Qle_bool (sh - ih) 0); [apply Qle_refl |].
    apply clamp_monotone. unfold Qdiv.
    apply Qmult_le_compat_r; [exact Hy |].
    apply Qlt_le_weak. now apply Qinv_lt_0_compat.
  - rewrite Q1. unfold documentProgress_spec.
    destruct (Qle_bool _ 0); [apply Qle_refl | apply clamp_unit_range].
  - rewrite Q2. unfold documentProgress_spec.
    destruct (Qle_bool _ 0); [discriminate | apply clamp_unit_range].
Qed.

(** C1.  On a page that exactly fills the viewport (document height equal
    to the viewport height, nothing scrolled), [useScrollProgress] divides
    zero by zero: the progress it stores is NaN, where the specification
    defines the progress as 0. *)
Theorem documentProgress_filled_viewport_is_NaN :
  documentProgress filledWindow = Normal NaN /\
  documentProgress_spec (scrollY filledWindow) (scrollHeight filledWindow)
    (innerHeight filledWindow) == 0 /\
  ~ num_eq NaN (Fin 0).
Proof.
  split; [reflexivity | split; [reflexivity | exact (fun H => H)]].
Qed.

(** C2.  The scroll offset 0 lies in the interval
    [0, documentHeight - viewportHeight] of a document as tall as the
    viewport, and the progress computed there is not a number of [0, 1]:
    it is not even comparable with itself. *)
Theorem documentProgress_leaves_unit_interval :
  let w := unscrollableWindow in
  (0 <= scrollY w /\ scrollY w <= scrollHeight w - innerHeight w) /\
  exists p,
    documentProgress w = Normal p /\
    between 0 1 p = false /\ le p p = false.
Proof.
  split.
  - split; discriminate.
  - exists NaN. repeat split.
Qed.

(* ------------------------------------------------------------------ *)
(** * useScrollSection                                                 *)
(* ------------------------------------------------------------------ *)


(** C3, the claim as stated.  It fails in two ways.  When the section and
    the viewport both have no height, the top of the section is at
    [scrollY + viewportHeight] and the evaluation stores NaN, not 0.  And
    on doubles, with a section whose top is 1000 pixels below the top of a
    viewport of height 1000 and the page scrolled by 0.3 pixels, the top of
    the section is at [scrollY + viewportHeight] and the value stored is
    above 0: the sum 1000 + 0.3 is rounded, so that [scrollY - start] is
    not 0. *)
Lemma sectionProgress_not_exactly_zero :
  (getElementById (document collapsedWindow) "work"
   = Some (mkElement "work" (mkRect 0 0)) /\
   top (mkRect 0 0) + scrollY collapsedWindow
   == scrollY collapsedWindow + innerHeight collapsedWindow /\
   sectionProgress "work" collapsedWindow (Fin 0) = Normal NaN /\
   ~ num_eq NaN (Fin 0)) /\
  (PrimFloat.eqb
     (Binary64.sectionTop Binary64.oneThousand Binary64.threeTenths)
     (Binary64.entryLine Binary64.oneThousand Binary64.threeTenths) = true /\
   PrimFloat.ltb Binary64.zero
     (Binary64.sectionProgressValue Binary64.oneThousand
        Binary64.eightHundred Binary64.oneThousand Binary64.threeTenths)
   = true).
Proof.
  split.
  - repeat split. exact (fun H => H).
  - split; vm_compute; reflexivity.
Qed.

(* ------------------------------------------------------------------ *)
(** * useScrollSection in rounded arithmetic                           *)
(* ------------------------------------------------------------------ *)

Lemma inject_Z_sub (a b : Z) : inject_Z (a - b) == inject_Z a - inject_Z b.
Proof.
  unfold Z.sub. rewrite inject_Z_plus, inject_Z_opp. reflexivity.
Qed.

Section RoundedFacts.

(** What is used of the rounding to a double: it respects equality of
    rationals, it is monotone, and it leaves the integers up to 2^53 as
    they are. *)
Variable round : Q -> Q.

Hypothesis round_compat : forall x y : Q, x == y -> round x == round y.
Hypothesis round_monotone : forall x y : Q, x <= y -> round x <= round y.
Hypothesis round_whole :
  forall z : Z, (Z.abs z <= 9007199254740992)%Z ->
                round (inject_Z z) == inject_Z z.

Lemma rounded_add_whole (a b : Q) (za zb : Z) :
  a == inject_Z za -> b == inject_Z zb ->
  (Z.abs (za + zb) <= 9007199254740992)%Z ->
  Rounded.add round a b == inject_Z (za + zb).
Proof.
  intros Ha Hb Hz. unfold Rounded.add.
  rewrite (round_compat (a + b) (inject_Z (za + zb))).
  - now apply round_whole.
  - now rewrite Ha, Hb, inject_Z_plus.
Qed.

Lemma rounded_sub_whole (a b : Q) (za zb : Z) :
  a == inject_Z za -> b == inject_Z zb ->
  (Z.abs (za - zb) <= 9007199254740992)%Z ->
  Rounded.sub round a b == inject_Z (za - zb).
Proof.
  intros Ha Hb Hz. unfold Rounded.sub.
  rewrite (round_compat (a - b) (inject_Z (za - zb))).
  - now apply round_whole.
  - now rewrite Ha, Hb, inject_Z_sub.
Qed.

Lemma rounded_div_finite (a b : Q) :
  ~ b == 0 -> Rounded.div round a b = Fin (round (a / b)).
Proof.
  intros Hb. unfold Rounded.div.
  destruct (Qeq_bool b 0) eqn:E; [| reflexivity].
  apply Qeq_bool_iff in E. contradiction.
Qed.

(** On whole pixels only the division is rounded, and the scroll offset
    cancels. *)
Lemma rounded_value_on_whole_pixels (sectionId : string) (w : Window)
  (section : Element) (last : number) :
  getElementById (document w) sectionId = Some section ->
  wholePixels (top (rect section)) -> wholePixels (height (rect section)) ->
  wholePixels (innerHeight w) -> wholePixels (scrollY w) ->
  ~ height (rect section) + innerHeight w == 0 ->
  exists p,
    Rounded.sectionProgress round sectionId w last = Normal (Fin p) /\
    p == clamp (round ((innerHeight w - top (rect section))
                       / (height (rect section) + innerHeight w))) 0 1.
Proof.
  intros Hs (zt & Et & Bt) (zh & Eh & Bh) (zi & Ei & Bi) (zy & Ey & By) Hnz.
  unfold Rounded.sectionProgress, exec, Rounded.calculateProgress.
  rewrite Hs. cbn [is_null member]. unfold getBoundingClientRect.
  set (sectionTop := Rounded.add round (top (rect section)) (scrollY w)).
  set (start := Rounded.sub round sectionTop (innerHeight w)).
  set (end_ := Rounded.add round sectionTop (height (rect section))).
  set (scrollRange := Rounded.sub round end_ start).
  set (currentScroll := Rounded.sub round (scrollY w) start).
  assert (Etop : sectionTop == inject_Z (zt + zy))
    by (apply rounded_add_whole; trivial; lia).
  assert (Estart : start == inject_Z (zt + zy - zi))
    by (apply rounded_sub_whole; trivial; lia).
  assert (Eend : end_ == inject_Z (zt + zy + zh))
    by (apply rounded_add_whole; trivial; lia).
  assert (Erange : scrollRange == inject_Z (zt + zy + zh - (zt + zy - zi)))
    by (apply rounded_sub_whole; trivial; lia).
  assert (Ecur : currentScroll == inject_Z (zy - (zt + zy - zi)))
    by (apply rounded_sub_whole; trivial; lia).
  assert (Erange' : scrollRange == height (rect section) + innerHeight w).
  { rewrite Erange, Eh, Ei, <- inject_Z_plus. f_equiv. lia. }
  assert (Ecur' : currentScroll == innerHeight w - top (rect section)).
  { rewrite Ecur, Ei, Et, <- inject_Z_sub. f_equiv. lia. }
  rewrite rounded_div_finite by (now rewrite Erange').
  eexists. split; [reflexivity |].
  unfold clamp. rewrite qmax_Qmax, qmin_Qmin, Q.min_comm.
  rewrite (round_compat (currentScroll / scrollRange)
             ((innerHeight w - top (rect section))
              / (height (rect section) + innerHeight w)));
    [reflexivity |].
  now rewrite Ecur', Erange'.
Qed.

Lemma round_zero : round 0 == 0.
Proof. apply (round_whole 0). cbn. lia. Qed.

Lemma round_one : round 1 == 1.
Proof. apply (round_whole 1). cbn. lia. Qed.

(** Rounding commutes with the clamp to the unit interval, whose bounds
    are doubles. *)
Lemma clamp_round (x : Q) : clamp (round x) 0 1 == round (clamp x 0 1).
Proof.
  pose proof round_zero as R0. pose proof round_one as R1.
  unfold clamp.
  destruct (Qlt_le_dec x 0) as [Hx | Hx]; [| destruct (Qlt_le_dec 1 x) as [Hx1 | Hx1]].
  - pose proof (round_monotone x 0 (Qlt_le_weak _ _ Hx)) as M.
    assert (Ex : Qmax 0 (Qmin x 1) == 0).
    { rewrite Q.min_l by lra. apply Q.max_l. lra. }
    rewrite (round_compat _ _ Ex), R0.
    rewrite Q.min_l by lra. apply Q.max_l. lra.
  - pose proof (round_monotone 1 x (Qlt_le_weak _ _ Hx1)) as M.
    assert (Ex : Qmax 0 (Qmin x 1) == 1).
    { rewrite Q.min_r by lra. apply Q.max_r. lra. }
    rewrite (round_compat _ _ Ex), R1.
    rewrite Q.min_r by lra. apply Q.max_r. lra.
  - pose proof (round_monotone 0 x Hx) as M0.
    pose proof (round_monotone x 1 Hx1) as M1.
    assert (Ex : Qmax 0 (Qmin x 1) == x).
    { rewrite Q.min_l by lra. apply Q.max_r. lra. }
    rewrite (round_compat _ _ Ex).
    rewrite Q.min_l by lra. apply Q.max_r. lra.
Qed.

(** C3, as amended.  For a section mounted in the DOM, with the layout in
    whole pixels and the section and the viewport not both without
    height, one evaluation stores [clamp(q, 0, 1)] where [q] is the double
    nearest to [(scrollY - start) / range], with
    [start = sectionTop - viewportHeight], [end = sectionTop + sectionHeight]
    and [range = end - start]; this is the double nearest to the value of
    the formula of the specification.  The value is exactly 0 when the top
    of the section is at [scrollY + viewportHeight] and exactly 1 when the
    bottom of the section is at [scrollY]. *)
Theorem sectionProgress_formula_on_whole_pixels (sectionId : string)
  (w : Window) (section : Element) (last : number) :
  getElementById (document w) sectionId = Some section ->
  wholePixels (top (rect section)) -> wholePixels (height (rect section)) ->
  wholePixels (innerHeight w) -> wholePixels (scrollY w) ->
  ~ height (rect section) + innerHeight w == 0 ->
  let sectionTop := top (rect section) + scrollY w in
  let sectionHeight := height (rect section) in
  let start := sectionTop - innerHeight w in
  let range := sectionTop + sectionHeight - start in
  exists p,
    Rounded.sectionProgress round sectionId w last = Normal (Fin p) /\
    p == clamp (round ((scrollY w - start) / range)) 0 1 /\
    p == round (sectionProgress_spec (scrollY w) (innerHeight w)
                  sectionTop sectionHeight) /\
    (sectionTop == scrollY w + innerHeight w -> p == 0) /\
    (sectionTop + sectionHeight == scrollY w -> p == 1).
Proof.
  intros Hs Ht Hh Hi Hy Hnz sectionTop sectionHeight start range.
  destruct (rounded_value_on_whole_pixels sectionId w section last
              Hs Ht Hh Hi Hy Hnz) as (p & E & V).
  assert (Hr : range == height (rect section) + innerHeight w).
  { unfold range, start, sectionTop, sectionHeight. ring. }
  assert (Hc : scrollY w - start == innerHeight w - top (rect section)).
  { unfold start, sectionTop. ring. }
  assert (Hq : p == clamp (round ((scrollY w - start) / range)) 0 1).
  { rewrite V. unfold clamp.
    rewrite (round_compat ((scrollY w - start) / range)
               ((innerHeight w - top (rect section))
                / (height (rect section) + innerHeight w)));
      [reflexivity | now rewrite Hc, Hr]. }
  exists p. split; [exact E |]. split; [exact Hq |]. split; [| split].
  - rewrite Hq. unfold sectionProgress_spec. fold start. fold range.
    apply clamp_round.
  - intros Htop. rewrite V. unfold clamp.
    rewrite (round_compat
               ((innerHeight w - top (rect section))
                / (height (rect section) + innerHeight w)) 0).
    + rewrite round_zero. reflexivity.
    + rewrite <- Hc. unfold start. rewrite Htop. field. exact Hnz.
  - intros Hbottom. rewrite V. unfold clamp.
    rewrite (round_compat
               ((innerHeight w - top (rect section))
                / (height (rect section) + innerHeight w)) 1).
    + rewrite round_one. reflexivity.
    + assert (Hcr : scrollY w - start == range)
        by (unfold range; now rewrite Hbottom).
      rewrite <- Hc, <- Hr, Hcr. field. now rewrite Hr.
Qed.

(** X6.  With the layout in whole pixels, the scroll offset cancels out
    of [useScrollSection]: the value stored for a mounted section is
    [clamp(q, 0, 1)] with [q] the double nearest to
    [(viewportHeight - rect.top) / (rect.height + viewportHeight)], so two
    windows that agree on the rectangle of the section and on the height
    of the viewport store the same value, whatever their scroll offsets,
    document heights and previous values. *)
Theorem sectionProgress_ignores_scroll_offset_on_whole_pixels
  (sectionId : string) (w1 w2 : Window) (e1 e2 : Element)
  (last1 last2 : number) :
  getElementById (document w1) sectionId = Some e1 ->
  getElementById (document w2) sectionId = Some e2 ->
  top (rect e1) == top (rect e2) ->
  height (rect e1) == height (rect e2) ->
  innerHeight w1 == innerHeight w2 ->
  wholePixels (top (rect e1)) -> wholePixels (height (rect e1)) ->
  wholePixels (innerHeight w1) ->
  wholePixels (scrollY w1) -> wholePixels (scrollY w2) ->
  ~ height (rect e1) + innerHeight w1 == 0 ->
  exists p1 p2,
    Rounded.sectionProgress round sectionId w1 last1 = Normal (Fin p1) /\
    Rounded.sectionProgress round sectionId w2 last2 = Normal (Fin p2) /\
    p1 == p2 /\
    p1 == clamp (round ((innerHeight w1 - top (rect e1))
                        / (height (rect e1) + innerHeight w1))) 0 1.
Proof.
  intros H1 H2 Et Eh Ei Pt Ph Pi Py1 Py2 Hnz.
  assert (Pt2 : wholePixels (top (rect e2))).
  { destruct Pt as (z & E & B). exists z. split; [now rewrite <- Et | exact B]. }
  assert (Ph2 : wholePixels (height (rect e2))).
  { destruct Ph as (z & E & B). exists z. split; [now rewrite <- Eh | exact B]. }
  assert (Pi2 : wholePixels (innerHeight w2)).
  { destruct Pi as (z & E & B). exists z. split; [now rewrite <- Ei | exact B]. }
  assert (Hnz2 : ~ height (rect e2) + innerHeight w2 == 0)
    by (now rewrite <- Eh, <- Ei).
  destruct (rounded_value_on_whole_pixels sectionId w1 e1 last1
              H1 Pt Ph Pi Py1 Hnz) as (p1 & E1 & V1).
  destruct (rounded_value_on_whole_pixels sectionId w2 e2 last2
              H2 Pt2 Ph2 Pi2 Py2 Hnz2) as (p2 & E2 & V2).
  exists p1, p2. repeat split; trivial.
  rewrite V1, V2. unfold clamp.
  rewrite (round_compat
             ((innerHeight w1 - top (rect e1))
              / (height (rect e1) + innerHeight w1))
             ((innerHeight w2 - top (rect e2))
              / (height (rect e2) + innerHeight w2)));
    [reflexivity | now rewrite Et, Eh, Ei].
Qed.

(** X7.  With the layout in whole pixels and the heights fixed (that of
    the viewport positive), the progress of a section does not decrease as
    the section moves up the viewport: a smaller [rect.top] never gives a
    smaller progress, whatever the scroll offsets. *)
Theorem sectionProgress_grows_as_section_rises_on_whole_pixels
  (sectionId : string) (w1 w2 : Window) (e1 e2 : Element)
  (last1 last2 : number) :
  getElementById (document w1) sectionId = Some e1 ->
  getElementById (document w2) sectionId = Some e2 ->
  height (rect e1) == height (rect e2) ->
  innerHeight w1 == innerHeight w2 ->
  wholePixels (top (rect e1)) -> wholePixels (top (rect e2)) ->
  wholePixels (height (rect e1)) -> wholePixels (innerHeight w1) ->
  wholePixels (scrollY w1) -> wholePixels (scrollY w2) ->
  0 <= height (rect e1) -> 0 < innerHeight w1 ->
  top (rect e2) <= top (rect e1) ->
  exists p1 p2,
    Rounded.sectionProgress round sectionId w1 last1 = Normal (Fin p1) /\
    Rounded.sectionProgress round sectionId w2 last2 = Normal (Fin p2) /\
    p1 <= p2.
Proof.
  intros H1 H2 Eh Ei Pt1 Pt2 Ph Pi Py1 Py2 Hh Hi Ht.
  assert (Ph2 : wholePixels (height (rect e2))).
  { destruct Ph as (z & E & B). exists z. split; [now rewrite <- Eh | exact B]. }
  assert (Pi2 : wholePixels (innerHeight w2)).
  { destruct Pi as (z & E & B). exists z. split; [now rewrite <- Ei | exact B]. }
  assert (Hpos : 0 < height (rect e1) + innerHeight w1) by lra.
  assert (Hnz : ~ height (rect e1) + innerHeight w1 == 0) by lra.
  assert (Hnz2 : ~ height (rect e2) + innerHeight w2 == 0)
    by (now rewrite <- Eh, <- Ei).
  destruct (rounded_value_on_whole_pixels sectionId w1 e1 last1
              H1 Pt1 Ph Pi Py1 Hnz) as (p1 & E1 & V1).
  destruct (rounded_value_on_whole_pixels sectionId w2 e2 last2
              H2 Pt2 Ph2 Pi2 Py2 Hnz2) as (p2 & E2 & V2).
  exists p1, p2. repeat split; trivial.
  rewrite V1, V2. apply clamp_monotone, round_monotone.
  rewrite <- Eh, <- Ei. unfold Qdiv.
  apply Qmult_le_compat_r; [lra |].
  apply Qlt_le_weak. now apply Qinv_lt_0_compat.
Qed.

End RoundedFacts.

(** The rounding of the witnesses has the three properties. *)
Lemma roundDown60_compat (x y : Q) :
  x == y -> roundDown60 x == roundDown60 y.
Proof. intros H. unfold roundDown60. now rewrite H. Qed.

Lemma roundDown60_monotone (x y : Q) :
  x <= y -> roundDown60 x <= roundDown60 y.
Proof.
  intros H. unfold roundDown60, Qdiv.
  apply Qmult_le_compat_r; [| discriminate].
  rewrite <- Zle_Qle. apply Qfloor_resp_le.
  apply Qmult_le_compat_r; [exact H | discriminate].
Qed.

Lemma roundDown60_whole (z : Z) :
  (Z.abs z <= 9007199254740992)%Z ->
  roundDown60 (inject_Z z) == inject_Z z.
Proof.
  intros _. unfold roundDown60.
  rewrite <- inject_Z_mult, Qfloor_Z, inject_Z_mult.
  field.
Qed.

Ltac whole z := exists z; split; [reflexivity | cbn; lia].

Lemma sectionProgress_formula_on_whole_pixels_witness :
  exists p,
    Rounded.sectionProgress roundDown60 "work" enteringWindow (Fin (1 # 2))
      = Normal (Fin p) /\
    p == 0.
Proof.
  destruct (sectionProgress_formula_on_whole_pixels roundDown60
              roundDown60_compat roundDown60_monotone roundDown60_whole
              "work" enteringWindow (mkElement "work" (mkRect 1000 800))
              (Fin (1 # 2)))
    as (p & Hp & _ & _ & Hzero & _).
  - reflexivity.
  - whole 1000%Z.
  - whole 800%Z.
  - whole 1000%Z.
  - whole 600%Z.
  - vm_compute. discriminate.
  - exists p. split; [exact Hp | apply Hzero; reflexivity].
Defined.

Lemma sectionProgress_ignores_scroll_offset_on_whole_pixels_witness :
  exists p1 p2,
    Rounded.sectionProgress roundDown60 "work"
      (mkWindow 0 1000 4000 [mkElement "work" (mkRect 200 600)]) (Fin 0)
      = Normal (Fin p1) /\
    Rounded.sectionProgress roundDown60 "work"
      (mkWindow 1700 1000 9000 [mkElement "work" (mkRect 200 600)]) NaN
      = Normal (Fin p2) /\
    p1 == p2.
Proof.
  destruct (sectionProgress_ignores_scroll_offset_on_whole_pixels roundDown60
              roundDown60_compat roundDown60_whole
              "work"
              (mkWindow 0 1000 4000 [mkElement "work" (mkRect 200 600)])
              (mkWindow 1700 1000 9000 [mkElement "work" (mkRect 200 600)])
              (mkElement "work" (mkRect 200 600))
              (mkElement "work" (mkRect 200 600)) (Fin 0) NaN)
    as (p1 & p2 & E1 & E2 & E & _);
    try reflexivity.
  - whole 200%Z.
  - whole 600%Z.
  - whole 1000%Z.
  - whole 0%Z.
  - whole 1700%Z.
  - vm_compute. discriminate.
  - exists p1, p2. repeat split; assumption.
Defined.

Lemma sectionProgress_grows_as_section_rises_on_whole_pixels_witness :
  exists p1 p2,
    Rounded.sectionProgress roundDown60 "work" (sectionAt 700) (Fin 0)
      = Normal (Fin p1) /\
    Rounded.sectionProgress roundDown60 "work" (sectionAt 300) (Fin 0)
      = Normal (Fin p2) /\
    p1 <= p2.
Proof.
  apply (sectionProgress_grows_as_section_rises_on_whole_pixels roundDown60
           roundDown60_compat roundDown60_monotone roundDown60_whole
           "work" (sectionAt 700) (sectionAt 300)
           (mkElement "work" (mkRect 700 600))
           (mkElement "work" (mkRect 300 600)) (Fin 0) (Fin 0));
    try reflexivity.
  - whole 700%Z.
  - whole 300%Z.
  - whole 600%Z.
  - whole 1000%Z.
  - whole 0%Z.
  - whole 0%Z.
  - vm_compute. discriminate.
  - vm_compute. discriminate.
Defined.

(** C4.  When no element of the DOM has the id, an evaluation returns
    normally and leaves the stored progress as it was. *)
Theorem sectionProgress_absent_section (sectionId : string) (w : Window)
  (last : number) :
  getElementById (document w) sectionId = None ->
  calculateProgress sectionId w last = Normal (tt, last) /\
  sectionProgress sectionId w last = Normal last.
Proof.
  intros Hs. unfold sectionProgress, exec, calculateProgress.
  rewrite Hs. split; reflexivity.
Qed.

Lemma sectionProgress_absent_section_witness :
  calculateProgress "blog" enteringWindow (Fin (1 # 3))
    = Normal (tt, Fin (1 # 3)) /\
  sectionProgress "blog" enteringWindow (Fin (1 # 3)) = Normal (Fin (1 # 3)).
Proof.
  apply (sectionProgress_absent_section "blog" enteringWindow (Fin (1 # 3))).
  reflexivity.
Defined.

(* ------------------------------------------------------------------ *)
(** * Navigation: the scroll handler                                   *)
(* ------------------------------------------------------------------ *)

Lemma probe_true (r : DOMRect) :
  probe r = true <-> top r <= 150 /\ 150 <= bottom r.
Proof.
  unfold probe. rewrite andb_true_iff, !Qle_bool_iff. reflexivity.
Qed.

Lemma not_probed_probe (w : Window) (s : string) (e : Element) :
  ~ probed w s -> getElementById (document w) s = Some e ->
  probe (rect e) = false.
Proof.
  intros Hn He. destruct (probe (rect e)) eqn:P; [| reflexivity].
  exfalso. apply Hn. exists e. split; [exact He | now apply probe_true].
Qed.

Section Loop.

Variable w : Window.

(** One turn of the loop, by the cases of the source. *)
Lemma forOfSections_cons (s : string) (rest : list string) (st : State) :
  forOfSections w (s :: rest) st =
  match getElementById (document w) s with
  | Some e => if probe (rect e)
              then Normal (tt, mkState (scrolled st) s)
              else forOfSections w rest st
  | None => forOfSections w rest st
  end.
Proof.
  cbn [forOfSections].
  destruct (getElementById (document w) s) as [e |]; cbn; [| reflexivity].
  unfold getBoundingClientRect. now destruct (probe (rect e)).
Qed.

(** The loop always returns; it keeps [scrolled], and the active section
    it leaves is the old one or one of the ids it ran over. *)
Lemma forOfSections_returns (sections : list string) (st : State) :
  exists st',
    forOfSections w sections st = Normal (tt, st') /\
    scrolled st' = scrolled st /\
    (st' = st \/ In (activeSection st') sections).
Proof.
  induction sections as [| s rest IH].
  - exists st. cbn. auto.
  - rewrite forOfSections_cons.
    destruct IH as (st' & E & Hs & Hin).
    assert (Hrest : exists st'0,
               forOfSections w rest st = Normal (tt, st'0) /\
               scrolled st'0 = scrolled st /\
               (st'0 = st \/ In (activeSection st'0) (s :: rest))).
    { exists st'. repeat split; trivial.
      destruct Hin; [now left | right; now right]. }
    destruct (getElementById (document w) s) as [e |]; [| exact Hrest].
    destruct (probe (rect e)); [| exact Hrest].
    exists (mkState (scrolled st) s). cbn. auto.
Qed.

Lemma forOfSections_none (sections : list string) (st : State) :
  (forall s, In s sections -> ~ probed w s) ->
  forOfSections w sections st = Normal (tt, st).
Proof.
  induction sections as [| s rest IH]; intros Hn; [reflexivity |].
  rewrite forOfSections_cons.
  assert (Hrest : forOfSections w rest st = Normal (tt, st)).
  { apply IH. intros s' Hs'. apply Hn. now right. }
  destruct (getElementById (document w) s) as [e |] eqn:He; [| exact Hrest].
  rewrite (not_probed_probe w s e); [exact Hrest | | exact He].
  apply Hn. now left.
Qed.

Lemma forOfSections_first (before after : list string) (s : string)
  (st : State) :
  (forall s', In s' before -> ~ probed w s') ->
  probed w s ->
  forOfSections w (before ++ s :: after) st
  = Normal (tt, mkState (scrolled st) s).
Proof.
  intros Hn (e & He & Hp). apply probe_true in Hp.
  induction before as [| b before IH]; cbn [app].
  - rewrite forOfSections_cons, He, Hp. reflexivity.
  - rewrite forOfSections_cons.
    assert (Hrest : forOfSections w (before ++ s :: after) st
                    = Normal (tt, mkState (scrolled st) s)).
    { apply IH. intros s' Hs'. apply Hn. now right. }
    destruct (getElementById (document w) b) as [eb |] eqn:Hb;
      [| exact Hrest].
    rewrite (not_probed_probe w b eb); [exact Hrest | | exact Hb].
    apply Hn. now left.
Qed.

End Loop.

Lemma handleScroll_home (items : list NavItem) (w : Window) (st : State) :
  handleScroll items true w st =
  forOfSections w (map id items)
    (mkState (negb (Qle_bool (scrollY w) 50)) (activeSection st)).
Proof. reflexivity. Qed.

Lemma handleScroll_elsewhere (items : list NavItem) (w : Window)
  (st : State) :
  handleScroll items false w st =
  Normal (tt, mkState (negb (Qle_bool (scrollY w) 50)) (activeSection st)).
Proof. reflexivity. Qed.

(** [handleScroll] always returns, and the active section afterwards is
    the previous one or a registered id. *)
Lemma handleScroll_returns (items : list NavItem) (home : bool)
  (w : Window) (st : State) :
  exists st',
    handleScroll items home w st = Normal (tt, st') /\
    (activeSection st' = activeSection st \/
     In (activeSection st') (map id items)).
Proof.
  destruct home.
  - rewrite handleScroll_home.
    destruct (forOfSections_returns w (map id items)
                (mkState (negb (Qle_bool (scrollY w) 50)) (activeSection st)))
      as (st' & E & _ & [-> | Hin]).
    + eexists. split; [exact E | now left].
    + exists st'. split; [exact E | now right].
  - rewrite handleScroll_elsewhere. eexists. split; [reflexivity | now left].
Qed.

(** C5.  A scroll evaluation on the section-bearing page makes active the
    first registered section, in the order of registration, that is
    mounted with viewport-relative top <= 150 and bottom >= 150.  For the
    stacked sections A, B, C in a viewport of 1000 pixels the active
    section is A at scrollY = 0, B at scrollY = 700 and C at
    scrollY = 2000. *)
Theorem handleScroll_activates_first_probed :
  (forall (items : list NavItem) (w : Window) (st : State)
          (before after : list string) (sectionId : string),
      map id items = before ++ sectionId :: after ->
      (forall s, In s before -> ~ probed w s) ->
      probed w sectionId ->
      exists st',
        handleScroll items true w st = Normal (tt, st') /\
        activeSection st' = sectionId) /\
  (forall st : State,
      exec (handleScroll itemsABC true (stacked 0)) st
        = Normal (mkState false "A") /\
      exec (handleScroll itemsABC true (stacked 700)) st
        = Normal (mkState true "B") /\
      exec (handleScroll itemsABC true (stacked 2000)) st
        = Normal (mkState true "C")).
Proof.
  split.
  - intros items w st before after sectionId Hitems Hbefore Hprobed.
    rewrite handleScroll_home, Hitems.
    eexists. split.
    + apply forOfSections_first; assumption.
    + reflexivity.
  - intros st. repeat split.
Qed.

Lemma handleScroll_activates_first_probed_witness :
  exists st',
    handleScroll navItems true
      (mkWindow 900 1000 5000
         [ mkElement "hero" (mkRect (-900) 800);
           mkElement "work" (mkRect (-100) 800) ])
      initialState = Normal (tt, st') /\
    activeSection st' = "work"%string.
Proof.
  apply (proj1 handleScroll_activates_first_probed navItems _ initialState
           ["hero"] ["experience"; "skills"; "blog"; "contact"] "work").
  - reflexivity.
  - intros s [<- | []] (e & He & _ & Hb).
    vm_compute in He. injection He as <-. vm_compute in Hb. now apply Hb.
  - eexists. split; [reflexivity |]. split; vm_compute; discriminate.
Defined.

(* ------------------------------------------------------------------ *)
(** * Navigation: the highlight                                        *)
(* ------------------------------------------------------------------ *)

Lemma isActive_button (home : bool) (a : string) (item : NavItem) :
  isActive (React.button
              ("nav-link " ++ (if String.eqb a (id item)
                               then "active" else ""))
              (handleNavClick home (id item)))
  = String.eqb a (id item).
Proof. now destruct (String.eqb a (id item)). Qed.

Lemma highlighted_at_most_once (items : list NavItem) (home : bool)
  (st : State) :
  NoDup (map id items) ->
  (length (filter isActive (render items home st)) <= 1)%nat.
Proof.
  intros Hnd. destruct home.
  - unfold render.
    induction items as [| item items IH]; cbn [map filter]; [cbn; lia |].
    cbn [map] in Hnd. inversion Hnd as [| ? ? Hnotin Hnd']; subst.
    rewrite isActive_button.
    destruct (String.eqb (activeSection st) (id item)) eqn:E.
    + apply String.eqb_eq in E.
      assert (Hnone : forall l : list NavItem,
                 ~ In (id item) (map id l) ->
                 filter isActive
                   (map (fun item0 =>
                           React.button
                             ("nav-link " ++
                              (if String.eqb (activeSection st) (id item0)
                               then "active" else ""))
                             (handleNavClick true (id item0))) l) = []).
      { induction l as [| x l IHl]; intros Hx; [reflexivity |].
        cbn [map filter]. rewrite isActive_button.
        destruct (String.eqb (activeSection st) (id x)) eqn:Ex.
        - apply String.eqb_eq in Ex. exfalso. apply Hx. left. congruence.
        - apply IHl. intros Hin. apply Hx. now right. }
      rewrite (Hnone items Hnotin). cbn. lia.
    + now apply IH.
  - unfold render.
    assert (Hnone : filter isActive
              (map (fun item => React.Link ("/#" ++ id item) "nav-link"
                                  (handleNavClick false (id item))) items)
              = []).
    { induction items as [| x l IHl]; [reflexivity |].
      cbn [map filter]. cbn [map] in Hnd.
      inversion Hnd; subst. now apply IHl. }
    rewrite Hnone. cbn. lia.
Qed.

Lemma navItems_ids :
  map id navItems
  = ["hero"; "work"; "experience"; "skills"; "blog"; "contact"]%string.
Proof. reflexivity. Qed.

Lemma navItems_NoDup : NoDup (map id navItems).
Proof.
  rewrite navItems_ids.
  repeat (constructor; [cbn; intuition discriminate |]). constructor.
Qed.

(** C6.  Whatever the state, at most one control of the navigation bar
    carries the highlight; and a scroll evaluation in which no registered
    section is under the probe line returns with the active section it
    started from. *)
Theorem active_section_single_and_retained :
  (forall (home : bool) (st : State),
      (length (filter isActive (render navItems home st)) <= 1)%nat) /\
  (forall (home : bool) (w : Window) (st : State),
      (forall s, In s (map id navItems) -> ~ probed w s) ->
      exists st',
        handleScroll navItems home w st = Normal (tt, st') /\
        activeSection st' = activeSection st).
Proof.
  split.
  - intros home st. apply highlighted_at_most_once, navItems_NoDup.
  - intros [|] w st Hnone.
    + rewrite handleScroll_home, (forOfSections_none w _ _ Hnone).
      eexists. split; reflexivity.
    + rewrite handleScroll_elsewhere. eexists. split; reflexivity.
Qed.

Lemma active_section_single_and_retained_witness :
  exists st',
    handleScroll navItems true pastTheEnd (mkState true "contact")
      = Normal (tt, st') /\
    activeSection st' = "contact"%string.
Proof.
  apply (proj2 active_section_single_and_retained true pastTheEnd
           (mkState true "contact")).
  intros s Hs (e & He & _ & Hb).
  cbn in Hs.
  destruct Hs as [<- | [<- | [<- | [<- | [<- | [<- | []]]]]]];
    vm_compute in He; try discriminate;
    injection He as <-; vm_compute in Hb; now apply Hb.
Defined.

(* ------------------------------------------------------------------ *)
(** * Navigation: the mounted component over time                      *)
(* ------------------------------------------------------------------ *)

Lemma isHomePage_false (path : string) : path <> "/" -> isHomePage path = false.
Proof. intros H. now apply String.eqb_neq. Qed.

(** A window event always returns; it leaves the location alone, and the
    active section is the previous one or a registered id.  Off the home
    page, and for every event other than 'scroll', it is the previous one. *)
Lemma step_window_event (items : list NavItem) (m : Mounted)
  (ty : EventType) (w : Window) :
  exists st',
    step items m (WindowEvent ty w) = Normal (mkMounted (pathname m) st') /\
    (activeSection st' = activeSection (state m) \/
     (isHomePage (pathname m) = true /\ ty = scroll /\
      In (activeSection st') (map id items))).
Proof.
  unfold step, listeners, exec. cbn [dispatchEvent].
  destruct ty; cbn [EventType_eqb];
    try (exists (state m); split; [reflexivity | now left]).
  unfold bind.
  destruct (handleScroll_returns items (isHomePage (pathname m)) w (state m))
    as (st' & E & H).
  rewrite E. cbn. exists st'. split; [reflexivity |].
  destruct H as [H | H]; [now left |].
  destruct (isHomePage (pathname m)) eqn:Hhome; [right; auto |].
  left. rewrite handleScroll_elsewhere in E. now inversion E.
Qed.

Lemma run_off_home_page (items : list NavItem) (path : string)
  (evs : list Event) : forall st : State,
  isHomePage path = false ->
  forallb isScrollOrResize evs = true ->
  exists st',
    run items (mkMounted path st) evs = Normal (mkMounted path st') /\
    activeSection st' = activeSection st.
Proof.
  induction evs as [| ev evs IH]; intros st Hpath Hevs.
  - exists st. split; reflexivity.
  - cbn [forallb] in Hevs. apply andb_true_iff in Hevs as [Hev Hevs].
    destruct ev as [ty w | p]; [| discriminate].
    destruct (step_window_event items (mkMounted path st) ty w)
      as (st1 & E & H).
    cbn [pathname state] in E, H.
    destruct H as [H | [Hhome _]]; [| congruence].
    destruct (IH st1 Hpath Hevs) as (st' & Erun & Hact).
    exists st'. cbn [run]. rewrite E. split; [exact Erun | congruence].
Qed.

(** C7.  On a page other than the root page, no sequence of scroll and
    resize events changes the active section: every such event is handled
    without error and leaves the active section as it was. *)
Theorem no_active_section_tracking_off_home_page (path : string)
  (st : State) (evs : list Event) :
  path <> "/" ->
  forallb isScrollOrResize evs = true ->
  exists st',
    run navItems (mkMounted path st) evs = Normal (mkMounted path st') /\
    activeSection st' = activeSection st.
Proof.
  intros Hpath Hevs.
  apply run_off_home_page; [now apply isHomePage_false | exact Hevs].
Qed.

Lemma no_active_section_tracking_off_home_page_witness :
  exists st',
    run navItems (mkMounted "/projects/checkout" (mkState false "hero"))
      [ WindowEvent scroll (stacked 700);
        WindowEvent resize (stacked 700);
        WindowEvent scroll (stacked 2000) ]
    = Normal (mkMounted "/projects/checkout" st') /\
    activeSection st' = "hero".
Proof.
  apply (no_active_section_tracking_off_home_page "/projects/checkout"
           (mkState false "hero")).
  - discriminate.
  - reflexivity.
Defined.

Lemma run_keeps_registered (items : list NavItem) (evs : list Event) :
  forall m : Mounted,
  In (activeSection (state m)) (map id items) ->
  exists m',
    run items m evs = Normal m' /\
    In (activeSection (state m')) (map id items).
Proof.
  induction evs as [| ev evs IH]; intros m Hin.
  - exists m. split; [reflexivity | exact Hin].
  - cbn [run]. destruct ev as [ty w | p].
    + destruct (step_window_event items m ty w) as (st1 & E & H).
      rewrite E. apply IH. cbn [state].
      destruct H as [-> | (_ & _ & H)]; assumption.
    + cbn [step]. apply IH. exact Hin.
Qed.

(** C10.  The active section is 'hero' when the component mounts, and
    after any sequence of window events and changes of location it is
    one of hero, work, experience, skills, blog, contact. *)
Theorem active_section_is_registered :
  (forall path : string, activeSection (state (mount path)) = "hero") /\
  (forall (path : string) (evs : list Event),
      exists m,
        run navItems (mount path) evs = Normal m /\
        In (activeSection (state m))
           ["hero"; "work"; "experience"; "skills"; "blog"; "contact"]).
Proof.
  split; [reflexivity |].
  intros path evs. rewrite <- navItems_ids.
  apply run_keeps_registered. cbn. now left.
Qed.

(* ------------------------------------------------------------------ *)
(** * Navigation: clicks                                               *)
(* ------------------------------------------------------------------ *)

Lemma render_nth (items : list NavItem) (home : bool) (st : State)
  (n : nat) (item : NavItem) :
  nth_error items n = Some item ->
  nth_error (render items home st) n =
  Some (if home
        then React.button
               ("nav-link " ++ (if String.eqb (activeSection st) (id item)
                                then "active" else ""))
               (handleNavClick home (id item))
        else React.Link ("/#" ++ id item) "nav-link"
               (handleNavClick home (id item))).
Proof.
  intros Hn. unfold render. rewrite nth_error_map, Hn. reflexivity.
Qed.

(** Scrolling to the offset that [block: start] asks for puts the top of
    the element at the top of the viewport. *)
Lemma alignedScrollY_aligns (w : Window) (e : Element) :
  top (rectAfterScroll w (alignedScrollY w e) e) == 0.
Proof. unfold rectAfterScroll, alignedScrollY. cbn [top]. ring. Qed.

(** C8.  A click on the nav item of a registered section whose element is
    mounted, on the root page, issues one smooth scroll that aligns the top
    of the section with the top of the viewport, and no navigation; the
    same click on any other page issues the navigation to the root page
    with the section id as fragment, and nothing else. *)
Theorem nav_click_scrolls_or_navigates (n : nat) (item : NavItem)
  (st : State) (w : Window) (b : Browser) :
  nth_error navItems n = Some item ->
  (forall element : Element,
      getElementById (document w) (id item) = Some element ->
      exists b',
        App.clickNavItem "/" st n w b = Normal (tt, b') /\
        performed b' = performed b ++ [ScrollIntoView element smooth start] /\
        top (rectAfterScroll w (alignedScrollY w element) element) == 0) /\
  (forall path : string,
      path <> "/" ->
      exists b',
        App.clickNavItem path st n w b = Normal (tt, b') /\
        performed b' = performed b ++ [Navigate ("/#" ++ id item)]).
Proof.
  intros Hn. split.
  - intros element He.
    unfold App.clickNavItem. cbn [isHomePage String.eqb Ascii.eqb Bool.eqb].
    rewrite (render_nth navItems true st n item Hn).
    eexists. split; [| split; [| apply alignedScrollY_aligns]].
    + unfold React.clickControl, handleNavClick, Utils.scrollTo.
      rewrite He. cbn. reflexivity.
    + reflexivity.
  - intros path Hpath.
    pose proof (isHomePage_false path Hpath) as Hhome.
    unfold App.clickNavItem, App.homePageMounted.
    unfold isHomePage in Hhome |- *. rewrite Hhome.
    rewrite (render_nth navItems false st n item Hn).
    eexists. split; [cbn; reflexivity | reflexivity].
Qed.

Lemma nav_click_scrolls_or_navigates_witness :
  (exists b',
      App.clickNavItem "/" initialState 5 contactWindow (freshBrowser 0)
        = Normal (tt, b') /\
      performed b' =
        [ScrollIntoView (mkElement "contact" (mkRect 3200 800)) smooth start])
  /\
  (exists b',
      App.clickNavItem "/projects/checkout" initialState 5 contactWindow
        (freshBrowser 0) = Normal (tt, b') /\
      performed b' = [Navigate "/#contact"]).
Proof.
  destruct (nav_click_scrolls_or_navigates 5 (mkItem "contact" "Contact")
              initialState contactWindow (freshBrowser 0) eq_refl)
    as [Hhome Hother].
  split.
  - destruct (Hhome (mkElement "contact" (mkRect 3200 800)) eq_refl)
      as (b' & E & P & _).
    exists b'. split; [exact E | exact P].
  - apply (Hother "/projects/checkout"). discriminate.
Defined.

(* ------------------------------------------------------------------ *)
(** * HomePage: arriving with a fragment                               *)
(* ------------------------------------------------------------------ *)

Lemma hashEffect_fragment (fragment : string) (b : Browser) :
  HomePage.hashEffect ("#" ++ fragment) b =
  setTimeout (ScrollToFragment fragment) 100 b.
Proof. reflexivity. Qed.

(** C9.  Mounting the root page with the fragment [#fragment] scrolls
    nothing at once: it sets one timer of 100 milliseconds.  Nothing is
    scrolled while less than 100 milliseconds have passed; when the timer
    fires, the element with that id, if one is mounted then, is scrolled
    into view smoothly, and if none is, nothing happens and no error is
    raised. *)
Theorem fragment_scroll_is_deferred (fragment : string) (now : nat) :
  exists b1,
    HomePage.hashEffect ("#" ++ fragment) (freshBrowser now)
      = Normal (tt, b1) /\
    performed b1 = [] /\
    pending b1 = [((now + 100)%nat, ScrollToFragment fragment)] /\
    (forall (w : Window) (dt : nat),
        (dt < 100)%nat ->
        exists b2,
          advance (HomePage.runClosure w) dt b1 = Normal (tt, b2) /\
          performed b2 = []) /\
    (forall (w : Window) (dt : nat),
        (100 <= dt)%nat ->
        exists b2,
          advance (HomePage.runClosure w) dt b1 = Normal (tt, b2) /\
          pending b2 = [] /\
          performed b2 =
            match getElementById (document w) fragment with
            | Some element => [ScrollIntoView element smooth start]
            | None => []
            end).
Proof.
  eexists. split; [rewrite hashEffect_fragment; reflexivity |].
  cbn [performed pending freshBrowser clock app].
  split; [reflexivity | split; [reflexivity | split]].
  - intros w dt Hdt. unfold advance.
    cbn [pending clock performed defaultPrevented filter fst].
    destruct (Nat.leb_spec (now + 100) (now + dt)) as [H | H]; [lia |].
    cbn. eexists. split; reflexivity.
  - intros w dt Hdt. unfold advance.
    cbn [pending clock performed defaultPrevented filter fst].
    destruct (Nat.leb_spec (now + 100) (now + dt)) as [H | H]; [| lia].
    cbn [negb runAll HomePage.runClosure].
    destruct (getElementById (document w) fragment) as [element |];
      cbn; eexists; repeat split.
Qed.

Lemma fragment_scroll_is_deferred_witness :
  exists b1,
    HomePage.hashEffect "#blog" (freshBrowser 0) = Normal (tt, b1) /\
    (exists b2,
        advance (HomePage.runClosure settledWindow) 99 b1 = Normal (tt, b2) /\
        performed b2 = []) /\
    (exists b2,
        advance (HomePage.runClosure settledWindow) 100 b1
          = Normal (tt, b2) /\
        performed b2 =
          [ScrollIntoView (mkElement "blog" (mkRect 2600 900)) smooth start]) /\
    (exists b2,
        advance (HomePage.runClosure contactWindow) 100 b1
          = Normal (tt, b2) /\
        performed b2 = []).
Proof.
  destruct (fragment_scroll_is_deferred "blog" 0)
    as (b1 & E & _ & _ & Hearly & Hfire).
  exists b1. split; [exact E |]. split; [| split].
  - apply Hearly. lia.
  - destruct (Hfire settledWindow 100%nat (Nat.le_refl _)) as (b2 & E2 & _ & P).
    exists b2. split; [exact E2 | exact P].
  - destruct (Hfire contactWindow 100%nat (Nat.le_refl _)) as (b2 & E2 & _ & P).
    exists b2. split; [exact E2 | exact P].
Defined.

(* ------------------------------------------------------------------ *)
(** * The hooks over time                                              *)
(* ------------------------------------------------------------------ *)

Lemma bind_Normal {S A B} (m : Handler S A) (k : A -> Handler S B)
  (s s' : S) (a : A) :
  m s = Normal (a, s') -> bind m k s = k a s'.
Proof. intros E. unfold bind. now rewrite E. Qed.

Lemma calculateScrollProgress_stores (w : Window) (p : number) :
  calculateScrollProgress w p = Normal (tt, progressValue w).
Proof. reflexivity. Qed.

Lemma dispatch_scrollProgress (ty : EventType) (w : Window) (p : number) :
  dispatchEvent Hooks.scrollProgressListeners ty w p =
  Normal (tt, if tracked ty then progressValue w else p).
Proof. destruct ty; reflexivity. Qed.

Lemma deliver_scrollProgress (evs : list (EventType * Window)) :
  forall w0 : Window,
  Hooks.deliver Hooks.scrollProgressListeners evs (progressValue w0) =
  Normal (tt, progressValue (latestWindow w0 evs)).
Proof.
  induction evs as [| [ty w] evs IH]; intros w0; [reflexivity |].
  cbn [Hooks.deliver latestWindow].
  rewrite (bind_Normal _ _ _ _ _ (dispatch_scrollProgress ty w _)).
  destruct (tracked ty); apply IH.
Qed.

(** X1.  After any sequence of events, [useScrollProgress] returns the
    progress of the window of the last scroll or resize event (of the
    window it mounted in when there was none): events of another type do
    not reach it, and no earlier event leaves a trace. *)
Theorem useScrollProgress_follows_latest_event (w0 : Window)
  (evs : list (EventType * Window)) :
  Hooks.useScrollProgress w0 evs = documentProgress (latestWindow w0 evs).
Proof.
  unfold Hooks.useScrollProgress, exec.
  rewrite (bind_Normal _ _ _ _ _ (calculateScrollProgress_stores w0 _)).
  rewrite deliver_scrollProgress. reflexivity.
Qed.





(* ------------------------------------------------------------------ *)
(** * The range of the two progress values                             *)
(* ------------------------------------------------------------------ *)

Lemma Qeq_bool_false (a b : Q) : Qeq_bool a b = false -> ~ a == b.
Proof. intros E H. apply Qeq_bool_iff in H. congruence. Qed.

Lemma Qle_bool_false (a b : Q) : Qle_bool a b = false -> b < a.
Proof.
  intros E. apply Qnot_le_lt. intros H. apply Qle_bool_iff in H. congruence.
Qed.

Lemma qmin_le_r (p q : Q) : qmin p q <= q.
Proof. rewrite qmin_Qmin. apply Q.le_min_r. Qed.

Lemma qmin_glb_iff (p q r : Q) : r <= qmin p q <-> r <= p /\ r <= q.
Proof. rewrite qmin_Qmin. apply Q.min_glb_iff. Qed.


(** The sign of a quotient. *)
Lemma Qdiv_nonneg_iff (y d : Q) :
  ~ d == 0 ->
  (0 <= y / d <-> (0 < d /\ 0 <= y) \/ (d < 0 /\ y <= 0)).
Proof.
  intros Hd.
  assert (E : y == (y / d) * d) by (field; exact Hd).
  set (x := y / d) in *. clearbody x.
  destruct (Qlt_le_dec 0 d) as [Hpos | Hneg].
  - split.
    + intros Hx. left. split; [exact Hpos |]. rewrite E. nra.
    + intros [[_ Hy] | [Hd' _]]; [| lra]. rewrite E in Hy. nra.
  - assert (Hlt : d < 0).
    { apply Qle_lt_or_eq in Hneg. destruct Hneg; [assumption | contradiction]. }
    split.
    + intros Hx. right. split; [exact Hlt |]. rewrite E. nra.
    + intros [[Hd' _] | [_ Hy]]; [lra |]. rewrite E in Hy. nra.
Qed.

(** X3.  [useScrollProgress] never stores a value above 1: the value is
    NaN or at most 1, and it is NaN exactly when nothing is scrolled and
    the document is as tall as the viewport. *)
Theorem documentProgress_never_above_one (w : Window) :
  exists p,
    documentProgress w = Normal p /\
    (p = NaN \/ le p (Fin 1) = true) /\
    (p = NaN <-> scrollY w == 0 /\ scrollHeight w == innerHeight w).
Proof.
  rewrite documentProgress_value. eexists. split; [reflexivity |].
  unfold div.
  destruct (Qeq_bool (scrollHeight w - innerHeight w) 0) eqn:Ed.
  - apply Qeq_bool_iff in Ed.
    assert (Eh : scrollHeight w == innerHeight w) by lra.
    destruct (scrollY w ?= 0) eqn:Ey; cbn [Math_min].
    + apply Qeq_alt in Ey. split; [now left | tauto].
    + apply Qlt_alt in Ey. split; [now right |].
      split; [discriminate | intros [H _]; lra].
    + apply Qgt_alt in Ey. split; [now right |].
      split; [discriminate | intros [H _]; lra].
  - apply Qeq_bool_false in Ed. cbn [Math_min]. split.
    + right. cbn [le]. apply Qle_bool_iff, qmin_le_r.
    + split; [discriminate | intros [_ H]; exfalso; apply Ed; lra].
Qed.

(** X4.  The value [useScrollProgress] stores lies in [0, 1] exactly in
    three cases: the document is taller than the viewport and the offset
    is not negative; the document is shorter than the viewport and the
    offset is not positive; or the two heights are equal and the offset is
    positive (the quotient is then infinite and [Math.min] gives 1).  In
    particular nothing clamps a negative quotient to 0. *)
Theorem documentProgress_in_unit_interval_iff (w : Window) :
  exists p,
    documentProgress w = Normal p /\
    (between 0 1 p = true <->
     (innerHeight w < scrollHeight w /\ 0 <= scrollY w) \/
     (scrollHeight w < innerHeight w /\ scrollY w <= 0) \/
     (scrollHeight w == innerHeight w /\ 0 < scrollY w)).
Proof.
  rewrite documentProgress_value. eexists. split; [reflexivity |].
  unfold div.
  destruct (Qeq_bool (scrollHeight w - innerHeight w) 0) eqn:Ed.
  - apply Qeq_bool_iff in Ed.
    assert (Eh : scrollHeight w == innerHeight w) by lra.
    destruct (scrollY w ?= 0) eqn:Ey; cbn [Math_min between].
    + apply Qeq_alt in Ey.
      split; [discriminate | intros [[H _] | [[H _] | [_ H]]]; lra].
    + apply Qlt_alt in Ey.
      split; [discriminate | intros [[H _] | [[H _] | [_ H]]]; lra].
    + apply Qgt_alt in Ey. split; [| reflexivity].
      intros _. right. right. split; [exact Eh | exact Ey].
  - apply Qeq_bool_false in Ed. cbn [Math_min between].
    rewrite andb_true_iff, !Qle_bool_iff.
    pose proof (Qdiv_nonneg_iff (scrollY w) _ Ed) as Hsign.
    pose proof (qmin_le_r (scrollY w / (scrollHeight w - innerHeight w)) 1).
    pose proof (qmin_glb_iff (scrollY w / (scrollHeight w - innerHeight w))
                  1 0) as Hglb.
    split.
    + intros [H0 _]. apply Hglb in H0 as [H0 _]. apply Hsign in H0.
      destruct H0 as [[Hd Hy] | [Hd Hy]].
      * left. split; [lra | exact Hy].
      * right. left. split; [lra | exact Hy].
    + intros Hc. split; [| assumption]. apply Hglb. split; [| lra].
      apply Hsign. destruct Hc as [[Hd Hy] | [[Hd Hy] | [Hd _]]].
      * left. split; [lra | exact Hy].
      * right. split; [lra | exact Hy].
      * exfalso. apply Ed. lra.
Qed.






(* ------------------------------------------------------------------ *)
(** * Navigation: more about the scroll handler                        *)
(* ------------------------------------------------------------------ *)

Lemma probedb_true (w : Window) (s : string) :
  probedb w s = true <-> probed w s.
Proof.
  unfold probedb, probed. split.
  - destruct (getElementById (document w) s) as [e |]; [| discriminate].
    intros H. exists e. split; [reflexivity | now apply probe_true].
  - intros (e & -> & H). now apply probe_true.
Qed.

(** The loop, as a search. *)
Lemma forOfSections_find (w : Window) (sections : list string) (st : State) :
  forOfSections w sections st =
  Normal (tt, mkState (scrolled st)
                (match find (probedb w) sections with
                 | Some s => s
                 | None => activeSection st
                 end)).
Proof.
  induction sections as [| s rest IH].
  - cbn. now destruct st.
  - rewrite forOfSections_cons. cbn [find]. unfold probedb at 1.
    destruct (getElementById (document w) s) as [e |]; [| exact IH].
    destruct (probe (rect e)); [reflexivity | exact IH].
Qed.

Lemma handleScroll_find (items : list NavItem) (home : bool) (w : Window)
  (st : State) :
  handleScroll items home w st =
  Normal (tt, mkState (negb (Qle_bool (scrollY w) 50))
                (if home
                 then match find (probedb w) (map id items) with
                      | Some s => s
                      | None => activeSection st
                      end
                 else activeSection st)).
Proof.
  destruct home.
  - rewrite handleScroll_home, forOfSections_find. reflexivity.
  - apply handleScroll_elsewhere.
Qed.

(** X8.  On every page, the home page or not, a scroll event sets
    [scrolled] to whether the page is scrolled by more than 50 pixels,
    whatever the section loop does. *)
Theorem handleScroll_sets_scrolled (items : list NavItem) (home : bool)
  (w : Window) (st : State) :
  exists st',
    handleScroll items home w st = Normal (tt, st') /\
    (scrolled st' = true <-> 50 < scrollY w).
Proof.
  rewrite handleScroll_find. eexists. split; [reflexivity |].
  cbn [scrolled]. rewrite negb_true_iff. split.
  - apply Qle_bool_false.
  - intros H. destruct (Qle_bool (scrollY w) 50) eqn:E; [| reflexivity].
    apply Qle_bool_iff in E. lra.
Qed.

(** X9.  [handleScroll] is idempotent: run again in the same window, it
    returns the state it was given. *)
Theorem handleScroll_idempotent (items : list NavItem) (home : bool)
  (w : Window) (st : State) :
  exists st',
    handleScroll items home w st = Normal (tt, st') /\
    handleScroll items home w st' = Normal (tt, st').
Proof.
  rewrite handleScroll_find. eexists. split; [reflexivity |].
  rewrite handleScroll_find. cbn [activeSection].
  destruct home; [| reflexivity].
  now destruct (find (probedb w) (map id items)).
Qed.

(** X10.  A scroll evaluation never activates a section that is not under
    the probe line: the active section it leaves is the one it found, or
    a registered section that is mounted with top <= 150 and
    bottom >= 150. *)
Theorem handleScroll_activates_only_probed (items : list NavItem)
  (home : bool) (w : Window) (st : State) :
  exists st',
    handleScroll items home w st = Normal (tt, st') /\
    (activeSection st' = activeSection st \/
     (In (activeSection st') (map id items) /\
      probed w (activeSection st'))).
Proof.
  rewrite handleScroll_find. eexists. split; [reflexivity |].
  cbn [activeSection]. destruct home; [| now left].
  destruct (find (probedb w) (map id items)) as [s |] eqn:F; [| now left].
  right. apply find_some in F as [Hin Hp].
  split; [exact Hin | now apply probedb_true].
Qed.


Lemma step_ignored (items : list NavItem) (m : Mounted) (ev : Event) :
  reachesNavigation ev = false -> step items m ev = Normal m.
Proof.
  destruct ev as [[| |] w | p]; try discriminate; intros _;
    now destruct m.
Qed.

(** X11.  Only scroll events and changes of location matter to
    [Navigation]: dropping every resize and click event from a sequence of
    events leaves its outcome as it is. *)
Theorem navigation_ignores_other_events (items : list NavItem)
  (evs : list Event) (m : Mounted) :
  run items m evs = run items m (filter reachesNavigation evs).
Proof.
  revert m. induction evs as [| ev evs IH]; intros m; [reflexivity |].
  cbn [filter]. destruct (reachesNavigation ev) eqn:R.
  - cbn [run]. destruct (step items m ev); [apply IH | reflexivity].
  - cbn [run]. rewrite (step_ignored items m ev R). apply IH.
Qed.

Lemma filter_isActive_home (items : list NavItem) (st : State) :
  filter isActive (render items true st)
  = map (fun item =>
           React.button "nav-link active" (handleNavClick true (id item)))
        (filter (fun item => String.eqb (activeSection st) (id item)) items).
Proof.
  unfold render. induction items as [| item items IH]; [reflexivity |].
  cbn [map filter]. rewrite isActive_button.
  destruct (String.eqb (activeSection st) (id item)); cbn [map];
    now rewrite IH.
Qed.

Lemma filter_isActive_elsewhere (items : list NavItem) (st : State) :
  filter isActive (render items false st) = [].
Proof.
  unfold render. induction items as [| item items IH]; [reflexivity |].
  cbn [map filter]. exact IH.
Qed.

Lemma one_item_with_id (items : list NavItem) (a : string) :
  NoDup (map id items) -> In a (map id items) ->
  length (filter (fun item => String.eqb a (id item)) items) = 1%nat.
Proof.
  induction items as [| item items IH]; intros Hnd Hin; [destruct Hin |].
  cbn [map] in Hnd, Hin. inversion Hnd as [| ? ? Hnotin Hnd']; subst.
  cbn [filter]. destruct (String.eqb a (id item)) eqn:E.
  - apply String.eqb_eq in E. subst a. cbn [length]. f_equal.
    assert (Hnone : forall l : list NavItem,
               ~ In (id item) (map id l) ->
               filter (fun item0 => String.eqb (id item) (id item0)) l = []).
    { induction l as [| x l IHl]; intros Hx; [reflexivity |].
      cbn [filter]. destruct (String.eqb (id item) (id x)) eqn:Ex.
      - apply String.eqb_eq in Ex. exfalso. apply Hx. now left.
      - apply IHl. intros H. apply Hx. now right. }
    now rewrite Hnone.
  - apply String.eqb_neq in E. destruct Hin as [H | H]; [congruence |].
    now apply IH.
Qed.

(** X12.  After any sequence of events since the component mounted, the
    navigation bar rendered on the home page has exactly one highlighted
    button, and the bar rendered on any other page has none. *)
Theorem exactly_one_highlight_on_home (path : string) (evs : list Event) :
  exists m,
    run navItems (mount path) evs = Normal m /\
    length (filter isActive (render navItems true (state m))) = 1%nat /\
    length (filter isActive (render navItems false (state m))) = 0%nat.
Proof.
  destruct (run_keeps_registered navItems evs (mount path))
    as (m & E & Hin); [cbn; now left |].
  exists m. split; [exact E |]. split.
  - rewrite filter_isActive_home, length_map.
    apply one_item_with_id; [apply navItems_NoDup | exact Hin].
  - now rewrite filter_isActive_elsewhere.
Qed.

Lemma run_app (items : list NavItem) (evs1 evs2 : list Event) :
  forall m m1 : Mounted,
  run items m evs1 = Normal m1 ->
  run items m (evs1 ++ evs2) = run items m1 evs2.
Proof.
  induction evs1 as [| ev evs1 IH]; intros m m1 E; cbn [run app] in *.
  - now inversion E.
  - destruct (step items m ev) as [m' |]; [now apply IH | discriminate].
Qed.

(** X13.  The highlight survives a visit to a project page.  A location
    '/projects/' followed by one segment matches the route
    'projects/:projectId', which is rendered inside the same layout as the
    home page: the component is not remounted, and nothing evaluates the
    sections off the home page, so on coming back to "/" the section that
    was active on leaving is still the active one. *)
Theorem highlight_survives_a_project_detour (st : State) (projectId : string)
  (evs : list Event) :
  isSegment projectId = true ->
  forallb isScrollOrResize evs = true ->
  exists st',
    run navItems (mkMounted "/" st)
      (LocationChange (detailPath projectId) :: evs ++ [LocationChange "/"])
    = Normal (mkMounted "/" st') /\
    activeSection st' = activeSection st.
Proof.
  intros _ Hevs.
  assert (Hpath : detailPath projectId <> "/")
    by (unfold detailPath; cbn; discriminate).
  destruct (run_off_home_page navItems (detailPath projectId) evs st
              (isHomePage_false _ Hpath) Hevs) as (st' & E & Hact).
  exists st'. split; [| exact Hact].
  cbn [run step state]. now rewrite (run_app _ _ _ _ _ E).
Qed.

Lemma highlight_survives_a_project_detour_witness :
  exists st',
    run navItems (mkMounted "/" (mkState true "blog"))
      [ LocationChange "/projects/admin-panel";
        WindowEvent scroll (stacked 0);
        WindowEvent resize (stacked 0);
        LocationChange "/" ]
    = Normal (mkMounted "/" st') /\
    activeSection st' = "blog".
Proof.
  apply (highlight_survives_a_project_detour (mkState true "blog")
           "admin-panel"
           [ WindowEvent scroll (stacked 0); WindowEvent resize (stacked 0) ]);
    reflexivity.
Defined.

(* ------------------------------------------------------------------ *)
(** * HomePage: the click listener                                     *)
(* ------------------------------------------------------------------ *)

Lemma prefix_hash (s : string) : String.prefix "#" ("#" ++ s)%string = true.
Proof. cbn. now destruct s. Qed.

(** The click listener of [HomePage] leaves alone every target
    that has no [href] or whose [href] does not start with '#': the
    default action is not prevented and nothing is scrolled.  The
    controls of the navigation bar are such targets, on every page. *)
Theorem handleSmoothScroll_ignores_other_targets :
  (forall (w : Window) (b : Browser),
      HomePage.handleSmoothScroll None w b = Normal (tt, b)) /\
  (forall (href : string) (w : Window) (b : Browser),
      String.prefix "#" href = false ->
      HomePage.handleSmoothScroll (Some href) w b = Normal (tt, b)) /\
  (forall (home : bool) (st : State) (control : React.Control)
          (w : Window) (b : Browser),
      In control (render navItems home st) ->
      HomePage.handleSmoothScroll (React.href control) w b = Normal (tt, b)).
Proof.
  split; [reflexivity | split].
  - intros href w b H. unfold HomePage.handleSmoothScroll. now rewrite H.
  - intros home st control w b Hin. unfold render in Hin.
    apply in_map_iff in Hin as (item & <- & _).
    destruct home; reflexivity.
Qed.

Lemma handleSmoothScroll_ignores_other_targets_witness :
  HomePage.handleSmoothScroll (Some "/#work") homeWindow (freshBrowser 0)
  = Normal (tt, freshBrowser 0).
Proof.
  apply (proj1 (proj2 handleSmoothScroll_ignores_other_targets)).
  reflexivity.
Defined.

(** X14.  A click on a target whose [href] is '#' followed by an
    identifier prevents the default action and, when an element has that
    id, scrolls it into view smoothly; when no element has it, the default
    action is still prevented, nothing is scrolled and no error is
    raised. *)
Theorem handleSmoothScroll_scrolls_to_fragment (ident : string)
  (w : Window) (b : Browser) :
  cssIdent ident = true ->
  exists b',
    HomePage.handleSmoothScroll (Some ("#" ++ ident)%string) w b
      = Normal (tt, b') /\
    defaultPrevented b' = true /\
    performed b' = performed b ++ scrollsFor w ident /\
    pending b' = pending b /\ clock b' = clock b.
Proof.
  intros Hident. destruct ident as [| c ident]; [discriminate |].
  unfold HomePage.handleSmoothScroll. rewrite prefix_hash.
  unfold scrollsFor, querySelector. cbn [append substring1].
  unfold bind, preventDefault, HomePage.liftCompletion.
  destruct (getElementById (document w) (String c ident)) as [e |];
    cbn; eexists; repeat split.
  cbn. now rewrite app_nil_r.
Qed.

Lemma handleSmoothScroll_scrolls_to_fragment_witness :
  exists b',
    HomePage.handleSmoothScroll (Some "#contact") homeWindow (freshBrowser 0)
      = Normal (tt, b') /\
    defaultPrevented b' = true /\
    performed b'
    = [ScrollIntoView (mkElement "contact" (mkRect 3200 800)) smooth start].
Proof.
  destruct (handleSmoothScroll_scrolls_to_fragment "contact" homeWindow
              (freshBrowser 0) eq_refl) as (b' & E & D & P & _).
  exists b'. repeat split; assumption.
Defined.

(** A click on a target whose [href] is the bare '#' makes the
    listener throw: the guard lets it through and [querySelector] rejects
    the selector "#". *)
Theorem handleSmoothScroll_throws_on_bare_hash (w : Window) (b : Browser) :
  HomePage.handleSmoothScroll (Some "#") w b = Throw (SyntaxError "#").
Proof. reflexivity. Qed.

(* ------------------------------------------------------------------ *)
(** * HomePage: timers, and arriving from another page                 *)
(* ------------------------------------------------------------------ *)

Lemma runClosure_performs (w : Window) (fragment : string) (b : Browser) :
  HomePage.runClosure w (ScrollToFragment fragment) b =
  Normal (tt, mkBrowser (clock b) (pending b)
                (performed b ++ scrollsFor w fragment) (defaultPrevented b)).
Proof.
  unfold HomePage.runClosure, scrollsFor.
  destruct (getElementById (document w) fragment) as [e |]; cbn.
  - reflexivity.
  - rewrite app_nil_r. now destruct b.
Qed.

(** X15.  A timer set for a fragment is never cancelled.  When the
    location changes to a second fragment, [dt] milliseconds after the
    first, both scrolls are performed in the order of the changes, once
    100 more milliseconds have passed. *)
Theorem fragment_timers_are_not_cancelled (f1 f2 : string) (now dt : nat)
  (w : Window) :
  exists b,
    (HomePage.hashEffect ("#" ++ f1) ;;;
     advance (HomePage.runClosure w) dt ;;;
     HomePage.hashEffect ("#" ++ f2) ;;;
     advance (HomePage.runClosure w) 100) (freshBrowser now)
    = Normal (tt, b) /\
    pending b = [] /\
    performed b = scrollsFor w f1 ++ scrollsFor w f2.
Proof.
  unfold bind. rewrite hashEffect_fragment.
  cbn [setTimeout freshBrowser clock pending performed defaultPrevented app].
  unfold advance at 1.
  cbn [clock pending performed defaultPrevented filter fst].
  destruct (Nat.leb_spec (now + 100) (now + dt)) as [Hdue | Hearly];
    cbn [negb runAll].
  - unfold bind. rewrite runClosure_performs. cbn [ret app].
    rewrite hashEffect_fragment.
    cbn [setTimeout clock pending performed defaultPrevented app].
    unfold advance.
    cbn [clock pending performed defaultPrevented filter fst].
    rewrite Nat.leb_refl. cbn [negb runAll]. unfold bind.
    rewrite runClosure_performs. cbn. eexists. repeat split.
  - cbn [ret]. rewrite hashEffect_fragment.
    cbn [setTimeout clock pending performed defaultPrevented app].
    unfold advance.
    cbn [clock pending performed defaultPrevented filter fst].
    rewrite Nat.leb_refl.
    destruct (Nat.leb_spec (now + 100) (now + dt + 100)) as [_ | H];
      [| lia].
    cbn [negb runAll]. unfold bind.
    rewrite runClosure_performs. cbn [clock pending performed
                                      defaultPrevented app].
    rewrite runClosure_performs. cbn. eexists. repeat split.
Qed.

Lemma parsePath_fragment (s : string) :
  Router.parsePath ("/#" ++ s) = Router.mkPath "/" "" ("#" ++ s).
Proof. reflexivity. Qed.

(** X16.  From a page other than the root page, a click on a nav item
    leads to its section: the click issues the navigation to "/#id", the
    router reads that location as the root page with the hash "#id", and
    the effect of [HomePage] for that hash, 100 milliseconds later,
    scrolls the element with the id into view if it is mounted by
    then. *)
Theorem nav_link_reaches_section (n : nat) (item : NavItem) (path : string)
  (st : State) (w0 w : Window) (now : nat) :
  nth_error navItems n = Some item ->
  path <> "/" ->
  exists url b1 b2,
    App.clickNavItem path st n w0 (freshBrowser now) = Normal (tt, b1) /\
    performed b1 = [Navigate url] /\
    App.homePageMounted (Router.pathname (Router.parsePath url)) = true /\
    (HomePage.hashEffect (Router.hash (Router.parsePath url)) ;;;
     advance (HomePage.runClosure w) 100) b1 = Normal (tt, b2) /\
    performed b2 = Navigate url :: scrollsFor w (id item).
Proof.
  intros Hn Hpath.
  pose proof (isHomePage_false path Hpath) as Hhome.
  exists ("/#" ++ id item)%string.
  unfold App.clickNavItem, App.homePageMounted.
  unfold isHomePage in Hhome |- *. rewrite Hhome.
  rewrite (render_nth navItems false st n item Hn).
  eexists. eexists. split; [cbn; reflexivity |]. split; [reflexivity |].
  rewrite parsePath_fragment. cbn [Router.pathname Router.hash].
  split; [reflexivity |].
  unfold bind. rewrite hashEffect_fragment.
  cbn [setTimeout clock pending performed defaultPrevented app].
  unfold advance. cbn [clock pending performed defaultPrevented filter fst].
  rewrite Nat.leb_refl. cbn [negb runAll]. unfold bind.
  rewrite runClosure_performs. cbn. split; reflexivity.
Qed.

Lemma nav_link_reaches_section_witness :
  exists url b1 b2,
    App.clickNavItem "/projects/payment-flow" initialState 1 homeWindow
      (freshBrowser 0) = Normal (tt, b1) /\
    performed b1 = [Navigate url] /\
    (HomePage.hashEffect (Router.hash (Router.parsePath url)) ;;;
     advance (HomePage.runClosure homeWindow) 100) b1 = Normal (tt, b2) /\
    performed b2 =
      [ Navigate "/#work";
        ScrollIntoView (mkElement "work" (mkRect 1400 900)) smooth start ].
Proof.
  destruct (nav_link_reaches_section 1 (mkItem "work" "Work")
              "/projects/payment-flow" initialState homeWindow homeWindow 0
              eq_refl)
    as (url & b1 & b2 & E1 & P1 & _ & E2 & P2); [discriminate |].
  assert (Hurl : url = "/#work").
  { vm_compute in E1. injection E1 as <-. cbn in P1. now injection P1. }
  subst url. exists "/#work", b1, b2. repeat split; assumption.
Defined.

(* ------------------------------------------------------------------ *)
(** * Hero.jsx: the typing animation                                   *)
(* ------------------------------------------------------------------ *)

Lemma substring_extend (s : string) : forall n : nat,
  (n < String.length s)%nat ->
  (String.substring 0 n s ++ LegacyHero.charAt s n)%string
  = String.substring 0 (S n) s.
Proof.
  induction s as [| c s IH]; intros n Hn; [cbn in Hn; lia |].
  destruct n as [| n].
  - cbn. now destruct s.
  - cbn [String.length] in Hn.
    change (LegacyHero.charAt (String c s) (S n))
      with (LegacyHero.charAt s n).
    cbn [String.substring append]. f_equal. apply IH. lia.
Qed.

Lemma substring_all (s : string) : String.substring 0 (String.length s) s = s.
Proof. induction s as [| c s IH]; cbn; [reflexivity | now rewrite IH]. Qed.

Lemma ticks_succ (fullText : string) (n : nat) (c : nat * LegacyHero.State) :
  LegacyHero.ticks fullText (S n) c
  = LegacyHero.tick fullText (LegacyHero.ticks fullText n c).
Proof.
  revert c. induction n as [| n IH]; intros c; [reflexivity |].
  change (LegacyHero.ticks fullText (S (S n)) c)
    with (LegacyHero.ticks fullText (S n) (LegacyHero.tick fullText c)).
  now rewrite IH.
Qed.

(** X17.  While the text is being typed, every firing of the timer comes
    50 milliseconds after the previous one and adds one character: after
    [n] firings, for [n] up to the length of the text, the text shown is
    the first [n] characters of the full text (never the text
    "undefined"), and the cursor has not blinked. *)
Theorem typing_shows_a_prefix (fullText : string) (t0 n : nat) :
  (n <= String.length fullText)%nat ->
  LegacyHero.ticks fullText n (t0, LegacyHero.initialState)
  = ((t0 + 50 * n)%nat,
     LegacyHero.mkState (String.substring 0 n fullText) n true).
Proof.
  induction n as [| n IH]; intros Hn.
  - cbn. rewrite Nat.add_0_r. now destruct fullText.
  - rewrite ticks_succ, IH by lia.
    unfold LegacyHero.tick, LegacyHero.effect.
    cbn [fst snd LegacyHero.currentIndex].
    destruct (Nat.ltb_spec n (String.length fullText)) as [_ | H]; [| lia].
    cbn [LegacyHero.wait LegacyHero.fire LegacyHero.displayedText
         LegacyHero.currentIndex LegacyHero.showCursor].
    rewrite substring_extend by lia.
    f_equal; [lia |]. f_equal. lia.
Qed.

Lemma typing_shows_a_prefix_witness :
  LegacyHero.ticks LegacyHero.fullText 10 (0%nat, LegacyHero.initialState)
  = (500%nat, LegacyHero.mkState "Full-Stack" 10 true).
Proof.
  apply (typing_shows_a_prefix LegacyHero.fullText 0 10).
  cbn. lia.
Defined.

(** X18.  The typing ends: the text is complete after as many firings as
    it has characters, 50 milliseconds each.  From then on the timer is
    the interval of 500 milliseconds, every firing of which toggles the
    cursor and leaves the text and the index as they are. *)
Theorem typing_completes_then_cursor_blinks (fullText : string)
  (t0 k : nat) :
  LegacyHero.ticks fullText (String.length fullText + k)
    (t0, LegacyHero.initialState)
  = ((t0 + 50 * String.length fullText + 500 * k)%nat,
     LegacyHero.mkState fullText (String.length fullText) (Nat.even k)).
Proof.
  induction k as [| k IH].
  - rewrite Nat.add_0_r, typing_shows_a_prefix by lia.
    rewrite substring_all. f_equal. lia.
  - rewrite Nat.add_succ_r, ticks_succ, IH.
    unfold LegacyHero.tick, LegacyHero.effect.
    cbn [fst snd LegacyHero.currentIndex].
    rewrite Nat.ltb_irrefl.
    cbn [LegacyHero.wait LegacyHero.fire LegacyHero.displayedText
         LegacyHero.currentIndex LegacyHero.showCursor].
    rewrite Nat.even_succ, <- Nat.negb_even. f_equal. lia.
Qed.

(* ------------------------------------------------------------------ *)
(** * CheckoutDemo                                                     *)
(* ------------------------------------------------------------------ *)

Lemma click_keeps_range (step : Z) (c : CheckoutDemo.Click) :
  (1 <= step <= 3)%Z -> (1 <= CheckoutDemo.click step c <= 3)%Z.
Proof.
  intros H. destruct c; cbn [CheckoutDemo.click];
    unfold CheckoutDemo.handleNext, CheckoutDemo.handleBack.
  - destruct (Z.ltb_spec step 3); lia.
  - destruct (Z.ltb_spec 1 step); lia.
Qed.

(** X19.  Whatever the buttons clicked, the step of the checkout is 1, 2
    or 3: 'Continue' does nothing on the last step and 'Back' nothing on
    the first. *)
Theorem checkout_step_stays_in_range (cs : list CheckoutDemo.Click) :
  (1 <= CheckoutDemo.clicks cs CheckoutDemo.initialStep <= 3)%Z /\
  CheckoutDemo.handleNext 3 = 3%Z /\
  CheckoutDemo.handleBack 1 = 1%Z.
Proof.
  split; [| split; reflexivity].
  unfold CheckoutDemo.clicks.
  assert (H : forall step, (1 <= step <= 3)%Z ->
                (1 <= fold_left CheckoutDemo.click cs step <= 3)%Z).
  { induction cs as [| c cs IH]; intros step Hs; [exact Hs |].
    cbn [fold_left]. apply IH. now apply click_keeps_range. }
  apply H. unfold CheckoutDemo.initialStep. lia.
Qed.

Section CardNumberFacts.

Variable char : Type.
Variable isWhitespace : char -> bool.
Variable isLineTerminator : char -> bool.
Variable space : char.

Hypothesis space_is_whitespace : isWhitespace space = true.
Hypothesis line_terminators_are_whitespace :
  forall c, isLineTerminator c = true -> isWhitespace c = true.

Local Abbreviation strip := (CheckoutDemo.stripWhitespace char isWhitespace).
Local Abbreviation groupsOf :=
  (CheckoutDemo.matchGroups char isLineTerminator).
Local Abbreviation joined := (CheckoutDemo.join char space).
Local Abbreviation format :=
  (CheckoutDemo.formatCardNumber char isWhitespace isLineTerminator space).
Local Abbreviation solid := (withoutWhitespace isWhitespace).

Lemma strip_solid (s : list char) : solid (strip s).
Proof.
  apply Forall_forall. intros c Hc.
  apply filter_In in Hc as [_ Hc]. now apply negb_true_iff.
Qed.

Lemma strip_of_solid (s : list char) : solid s -> strip s = s.
Proof.
  induction 1 as [| c s Hc _ IH]; [reflexivity |].
  cbn [CheckoutDemo.stripWhitespace filter]. rewrite Hc. cbn [negb].
  f_equal. exact IH.
Qed.

Lemma strip_app (s t : list char) : strip (s ++ t) = strip s ++ strip t.
Proof. apply filter_app. Qed.

Lemma solid_not_terminator (c : char) :
  isWhitespace c = false -> isLineTerminator c = false.
Proof.
  intros Hc. destruct (isLineTerminator c) eqn:E; [| reflexivity].
  apply line_terminators_are_whitespace in E. congruence.
Qed.

(** On a string without whitespace the matches cover the string. *)
Lemma groups_cover (s : list char) : forall group : list char,
  solid s -> (length group < 4)%nat ->
  concat (groupsOf s group) = group ++ s.
Proof.
  induction s as [| c s IH]; intros group Hs Hg.
  - cbn. destruct group; cbn; [reflexivity | now rewrite !app_nil_r].
  - inversion Hs as [| ? ? Hc Hs']; subst.
    cbn [CheckoutDemo.matchGroups].
    rewrite (solid_not_terminator c Hc).
    destruct (Nat.eqb_spec (length (group ++ [c])) 4) as [E | E].
    + cbn [concat]. rewrite (IH [] Hs') by (cbn; lia).
      cbn [app]. now rewrite <- app_assoc.
    + rewrite (IH (group ++ [c]) Hs').
      * now rewrite <- app_assoc.
      * rewrite length_app in *. cbn [length] in *. lia.
Qed.

Lemma strip_joined (groups : list (list char)) :
  solid (concat groups) -> strip (joined groups) = concat groups.
Proof.
  induction groups as [| g groups IH]; intros Hs; [reflexivity |].
  cbn [concat] in Hs. apply Forall_app in Hs as [Hg Hrest].
  destruct groups as [| g' groups].
  - cbn. rewrite app_nil_r. now apply strip_of_solid.
  - change (joined (g :: g' :: groups))
      with (g ++ space :: joined (g' :: groups)).
    rewrite strip_app, (strip_of_solid g Hg).
    cbn [CheckoutDemo.stripWhitespace filter].
    rewrite space_is_whitespace. cbn [negb concat].
    f_equal. now apply IH.
Qed.

Lemma strip_joined_groups (v : list char) :
  strip (joined (groupsOf (strip v) [])) = strip v.
Proof.
  pose proof (groups_cover (strip v) [] (strip_solid v)) as Hc.
  cbn [length app] in Hc.
  rewrite strip_joined; [apply Hc; lia |].
  rewrite Hc by lia. apply strip_solid.
Qed.

(** X20.  Formatting a card number neither loses nor reorders nor adds a
    character other than whitespace: without whitespace, the result reads
    as the input does. *)
Theorem formatCardNumber_keeps_the_digits (value : list char) :
  CheckoutDemo.stripWhitespace char isWhitespace
    (CheckoutDemo.formatCardNumber char isWhitespace isLineTerminator space
       value)
  = CheckoutDemo.stripWhitespace char isWhitespace value.
Proof.
  unfold CheckoutDemo.formatCardNumber, CheckoutDemo.matchAll.
  pose proof (strip_joined_groups value) as H.
  destruct (groupsOf (strip value) []) as [| g groups]; [reflexivity |].
  destruct (joined (g :: groups)) as [| c j]; [reflexivity | exact H].
Qed.

(** X21.  Formatting is idempotent: a formatted card number is left as it
    is by formatting it again. *)
Theorem formatCardNumber_idempotent (value : list char) :
  CheckoutDemo.formatCardNumber char isWhitespace isLineTerminator space
    (CheckoutDemo.formatCardNumber char isWhitespace isLineTerminator space
       value)
  = CheckoutDemo.formatCardNumber char isWhitespace isLineTerminator space
      value.
Proof.
  pose proof (strip_joined_groups value) as H.
  unfold CheckoutDemo.formatCardNumber at 2.
  unfold CheckoutDemo.matchAll.
  destruct (groupsOf (strip value) []) as [| g groups] eqn:G;
    [reflexivity |].
  destruct (joined (g :: groups)) as [| c j] eqn:J; [reflexivity |].
  unfold CheckoutDemo.formatCardNumber, CheckoutDemo.matchAll.
  rewrite H, G, J. reflexivity.
Qed.

Lemma format_of_solid (s : list char) :
  solid s ->
  format s = match joined (groupsOf s []) with [] => s | j => j end.
Proof.
  intros Hs. unfold CheckoutDemo.formatCardNumber, CheckoutDemo.matchAll.
  rewrite (strip_of_solid s Hs).
  now destruct (groupsOf s []).
Qed.

Lemma groups_of_four (a b c d : char) (rest : list char) :
  isLineTerminator a = false -> isLineTerminator b = false ->
  isLineTerminator c = false -> isLineTerminator d = false ->
  groupsOf (a :: b :: c :: d :: rest) [] = [a; b; c; d] :: groupsOf rest [].
Proof.
  intros Ha Hb Hc Hd.
  change (groupsOf (a :: b :: c :: d :: rest) [])
    with (if isLineTerminator a then groupsOf (b :: c :: d :: rest) []
          else groupsOf (b :: c :: d :: rest) [a]).
  rewrite Ha.
  change (groupsOf (b :: c :: d :: rest) [a])
    with (if isLineTerminator b then [a] :: groupsOf (c :: d :: rest) []
          else groupsOf (c :: d :: rest) [a; b]).
  rewrite Hb.
  change (groupsOf (c :: d :: rest) [a; b])
    with (if isLineTerminator c then [a; b] :: groupsOf (d :: rest) []
          else groupsOf (d :: rest) [a; b; c]).
  rewrite Hc.
  change (groupsOf (d :: rest) [a; b; c])
    with (if isLineTerminator d then [a; b; c] :: groupsOf rest []
          else [a; b; c; d] :: groupsOf rest []).
  now rewrite Hd.
Qed.

(** X22.  Sixteen characters without whitespace are formatted as four
    groups of four separated by single spaces, 19 characters in all, and
    the field then takes no more: whatever is typed or pasted after such
    a card number, the change handler stores the card number as it was. *)
Theorem card_number_is_capped_at_sixteen (digits extra : list char) :
  withoutWhitespace isWhitespace digits ->
  length digits = 16%nat ->
  length (CheckoutDemo.formatCardNumber char isWhitespace isLineTerminator
            space digits) = 19%nat /\
  CheckoutDemo.onCardNumberChange char isWhitespace isLineTerminator space
    (CheckoutDemo.formatCardNumber char isWhitespace isLineTerminator space
       digits ++ extra)
  = CheckoutDemo.formatCardNumber char isWhitespace isLineTerminator space
      digits.
Proof.
  intros Hs Hlen.
  pose proof (formatCardNumber_idempotent digits) as Hidem.
  rewrite (format_of_solid digits Hs) in *.
  do 16 (destruct digits as [| ? digits]; [discriminate Hlen |]).
  destruct digits; [| discriminate Hlen].
  unfold withoutWhitespace in Hs.
  repeat match goal with
         | H : Forall _ (_ :: _) |- _ =>
             let Hc := fresh "Hc" in
             let Hr := fresh "Hr" in
             inversion H as [| ? ? Hc Hr]; subst; clear H;
             apply solid_not_terminator in Hc
         end.
  rewrite !groups_of_four in Hidem |- * by assumption.
  cbn [CheckoutDemo.matchGroups CheckoutDemo.join app] in Hidem |- *.
  split; [reflexivity |].
  unfold CheckoutDemo.onCardNumberChange. cbn [firstn app]. exact Hidem.
Qed.

End CardNumberFacts.


Lemma ascii_line_terminators_are_whitespace (c : ascii) :
  asciiLineTerminator c = true -> asciiWhitespace c = true.
Proof. intros H. unfold asciiWhitespace. now rewrite H. Qed.

Lemma formatCardNumber_keeps_the_digits_witness :
  CheckoutDemo.stripWhitespace ascii asciiWhitespace
    (formatAscii "42424 2424242 42")
  = list_ascii_of_string "42424242424242".
Proof.
  unfold formatAscii.
  rewrite (formatCardNumber_keeps_the_digits ascii asciiWhitespace
             asciiLineTerminator " "%char eq_refl
             ascii_line_terminators_are_whitespace).
  reflexivity.
Defined.

Lemma formatCardNumber_idempotent_witness :
  CheckoutDemo.formatCardNumber ascii asciiWhitespace asciiLineTerminator
    " "%char (formatAscii "42424 2424242 42")
  = formatAscii "42424 2424242 42".
Proof.
  apply (formatCardNumber_idempotent ascii asciiWhitespace
           asciiLineTerminator " "%char eq_refl
           ascii_line_terminators_are_whitespace).
Defined.

Lemma card_number_is_capped_at_sixteen_witness :
  length (formatAscii "4242424242424242") = 19%nat /\
  CheckoutDemo.onCardNumberChange ascii asciiWhitespace asciiLineTerminator
    " "%char (formatAscii "4242424242424242" ++ list_ascii_of_string "7")
  = formatAscii "4242424242424242".
Proof.
  apply (card_number_is_capped_at_sixteen ascii asciiWhitespace
           asciiLineTerminator " "%char eq_refl
           ascii_line_terminators_are_whitespace).
  - repeat constructor.
  - reflexivity.
Defined.

(* ------------------------------------------------------------------ *)
(** * AdminPanelDemo                                                   *)
(* ------------------------------------------------------------------ *)

(** X23.  [toggleUserStatus] is an involution: toggling the same id
    twice gives back the list of users, whatever ids it holds. *)
Theorem toggleUserStatus_twice (i : Z) (users : list AdminPanelDemo.User) :
  AdminPanelDemo.toggleUserStatus i (AdminPanelDemo.toggleUserStatus i users)
  = users.
Proof.
  unfold AdminPanelDemo.toggleUserStatus. rewrite map_map.
  rewrite <- (map_id users) at 2. apply map_ext. intros [j n e r s].
  cbn [AdminPanelDemo.id AdminPanelDemo.name AdminPanelDemo.email
       AdminPanelDemo.role AdminPanelDemo.status].
  destruct (Z.eqb_spec j i) as [-> | Hne]; cbn [AdminPanelDemo.id].
  - rewrite Z.eqb_refl. now destruct s.
  - destruct (Z.eqb_spec j i); [contradiction | reflexivity].
Qed.

(** X24.  Toggling a user never changes which rows the table shows: the
    search and the role filter do not look at the status, so the users
    shown before and after are the same, in the same order. *)
Theorem toggle_keeps_the_rows (includesIgnoringCase : string -> string -> bool)
  (searchTerm selectedRole : string) (i : Z)
  (users : list AdminPanelDemo.User) :
  map AdminPanelDemo.id
    (AdminPanelDemo.filteredUsers includesIgnoringCase searchTerm selectedRole
       (AdminPanelDemo.toggleUserStatus i users))
  = map AdminPanelDemo.id
      (AdminPanelDemo.filteredUsers includesIgnoringCase searchTerm
         selectedRole users).
Proof.
  unfold AdminPanelDemo.filteredUsers, AdminPanelDemo.toggleUserStatus.
  induction users as [| [j n e r s] users IH]; [reflexivity |].
  cbn [map filter AdminPanelDemo.id AdminPanelDemo.name AdminPanelDemo.email
       AdminPanelDemo.role AdminPanelDemo.status].
  destruct (j =? i)%Z;
    cbn [AdminPanelDemo.id AdminPanelDemo.name AdminPanelDemo.email
         AdminPanelDemo.role];
    destruct ((includesIgnoringCase n searchTerm
               || includesIgnoringCase e searchTerm)
              && (String.eqb selectedRole "all" || String.eqb r selectedRole));
    cbn [map AdminPanelDemo.id]; now rewrite IH.
Qed.

(* ------------------------------------------------------------------ *)
(** * TaskFlowDemo                                                     *)
(* ------------------------------------------------------------------ *)

(** X25.  The three columns of the board show every task exactly once:
    together they are a permutation of the tasks. *)
Theorem columns_partition_the_tasks (st : TaskFlowDemo.State) :
  Permutation
    (TaskFlowDemo.getTasksByStatus TaskFlowDemo.todo st ++
     TaskFlowDemo.getTasksByStatus TaskFlowDemo.inProgress st ++
     TaskFlowDemo.getTasksByStatus TaskFlowDemo.done st)
    (TaskFlowDemo.tasks st).
Proof.
  unfold TaskFlowDemo.getTasksByStatus.
  induction (TaskFlowDemo.tasks st) as [| t ts IH]; [constructor |].
  cbn [filter]. destruct (TaskFlowDemo.status t);
    cbn [TaskFlowDemo.Status_eqb app].
  - now constructor.
  - symmetry. apply Permutation_cons_app. now symmetry.
  - symmetry. rewrite app_assoc. apply Permutation_cons_app.
    rewrite <- app_assoc. now symmetry.
Qed.

Lemma gesture_keeps_cards (st : TaskFlowDemo.State)
  (g : TaskFlowDemo.Gesture) :
  map taskCard (TaskFlowDemo.tasks (TaskFlowDemo.gesture st g))
  = map taskCard (TaskFlowDemo.tasks st).
Proof.
  destruct g as [task | | s]; try reflexivity.
  cbn [TaskFlowDemo.gesture]. unfold TaskFlowDemo.handleDrop.
  destruct (TaskFlowDemo.draggedTask st) as [d |]; [| reflexivity].
  cbn [TaskFlowDemo.tasks]. rewrite map_map. apply map_ext.
  intros t. now destruct (String.eqb (TaskFlowDemo.id t) (TaskFlowDemo.id d)).
Qed.

(** X26.  No sequence of drags and drops adds, removes, reorders or
    edits a task: apart from the status, the tasks stay what they were. *)
Theorem gestures_only_change_the_status (gs : list TaskFlowDemo.Gesture)
  (st : TaskFlowDemo.State) :
  map taskCard (TaskFlowDemo.tasks (TaskFlowDemo.gestures gs st))
  = map taskCard (TaskFlowDemo.tasks st) /\
  length (TaskFlowDemo.tasks (TaskFlowDemo.gestures gs st))
  = length (TaskFlowDemo.tasks st).
Proof.
  assert (H : map taskCard (TaskFlowDemo.tasks (TaskFlowDemo.gestures gs st))
              = map taskCard (TaskFlowDemo.tasks st)).
  { unfold TaskFlowDemo.gestures. revert st.
    induction gs as [| g gs IH]; intros st; [reflexivity |].
    cbn [fold_left]. rewrite IH. apply gesture_keeps_cards. }
  split; [exact H |].
  apply (f_equal (@length _)) in H. now rewrite !length_map in H.
Qed.

(** X27.  Dropping a dragged task on a column moves it there and nowhere
    else: the column then shows the tasks it showed and those with the id
    of the dragged task, every other column shows the tasks it showed
    without them, and nothing is being dragged any more. *)
Theorem drop_moves_the_dragged_task (task : TaskFlowDemo.Task)
  (s : TaskFlowDemo.Status) (st : TaskFlowDemo.State) :
  let st' := TaskFlowDemo.handleDrop s (TaskFlowDemo.handleDragStart task st) in
  TaskFlowDemo.draggedTask st' = None /\
  map taskCard (TaskFlowDemo.getTasksByStatus s st')
  = map taskCard
      (filter (fun t =>
                 TaskFlowDemo.Status_eqb (TaskFlowDemo.status t) s
                 || String.eqb (TaskFlowDemo.id t) (TaskFlowDemo.id task))
         (TaskFlowDemo.tasks st)) /\
  (forall s' : TaskFlowDemo.Status,
      s' <> s ->
      TaskFlowDemo.getTasksByStatus s' st'
      = filter (fun t =>
                  TaskFlowDemo.Status_eqb (TaskFlowDemo.status t) s'
                  && negb (String.eqb (TaskFlowDemo.id t)
                             (TaskFlowDemo.id task)))
          (TaskFlowDemo.tasks st)).
Proof.
  cbn zeta. unfold TaskFlowDemo.handleDrop, TaskFlowDemo.handleDragStart,
    TaskFlowDemo.getTasksByStatus.
  cbn [TaskFlowDemo.draggedTask TaskFlowDemo.tasks].
  split; [reflexivity |]. split.
  - induction (TaskFlowDemo.tasks st) as [| t ts IH]; [reflexivity |].
    cbn [map filter].
    destruct (String.eqb (TaskFlowDemo.id t) (TaskFlowDemo.id task)).
    + cbn [TaskFlowDemo.status]. rewrite orb_true_r.
      assert (E : TaskFlowDemo.Status_eqb s s = true) by now destruct s.
      rewrite E. cbn [map]. now rewrite IH.
    + rewrite orb_false_r.
      destruct (TaskFlowDemo.Status_eqb (TaskFlowDemo.status t) s);
        cbn [map]; now rewrite IH.
  - intros s' Hs'.
    induction (TaskFlowDemo.tasks st) as [| t ts IH]; [reflexivity |].
    cbn [map filter].
    destruct (String.eqb (TaskFlowDemo.id t) (TaskFlowDemo.id task)).
    + cbn [TaskFlowDemo.status negb]. rewrite andb_false_r.
      assert (E : TaskFlowDemo.Status_eqb s s' = false)
        by (destruct s, s'; try reflexivity; contradiction).
      now rewrite E.
    + cbn [negb]. rewrite andb_true_r.
      destruct (TaskFlowDemo.Status_eqb (TaskFlowDemo.status t) s');
        now rewrite IH.
Qed.

(* ------------------------------------------------------------------ *)
(** * LandingBuilderDemo                                               *)
(* ------------------------------------------------------------------ *)

Lemma updateBlock_keeps_ids (i c : string) (st : LandingBuilderDemo.State) :
  map LandingBuilderDemo.id
    (LandingBuilderDemo.blocks (LandingBuilderDemo.updateBlock i c st))
  = map LandingBuilderDemo.id (LandingBuilderDemo.blocks st).
Proof.
  unfold LandingBuilderDemo.updateBlock. cbn [LandingBuilderDemo.blocks].
  rewrite map_map. apply map_ext. intros b.
  now destruct (String.eqb (LandingBuilderDemo.id b) i).
Qed.

Lemma act_keeps_selection_on_canvas (st : LandingBuilderDemo.State)
  (a : LandingBuilderDemo.Action) :
  selectionOnCanvas st -> possibleAction st a ->
  selectionOnCanvas (LandingBuilderDemo.act st a).
Proof.
  unfold selectionOnCanvas. intros Hsel Hposs.
  destruct a as [now t | n | n c | n | newOrder]; cbn [LandingBuilderDemo.act].
  - cbn [LandingBuilderDemo.addBlock LandingBuilderDemo.selectedBlock
         LandingBuilderDemo.blocks].
    destruct (LandingBuilderDemo.selectedBlock st) as [s |]; [| exact I].
    rewrite map_app. apply in_or_app. now left.
  - destruct (nth_error (LandingBuilderDemo.blocks st) n) as [b |] eqn:E;
      [| exact Hsel].
    cbn [LandingBuilderDemo.selectedBlock LandingBuilderDemo.blocks].
    apply in_map. now apply nth_error_In with n.
  - destruct (nth_error (LandingBuilderDemo.blocks st) n) as [b |];
      [| exact Hsel].
    rewrite updateBlock_keeps_ids.
    exact Hsel.
  - destruct (nth_error (LandingBuilderDemo.blocks st) n) as [b |];
      [| exact Hsel].
    unfold LandingBuilderDemo.deleteBlock.
    cbn [LandingBuilderDemo.selectedBlock LandingBuilderDemo.blocks].
    destruct (LandingBuilderDemo.selectedBlock st) as [s |]; [| exact I].
    destruct (String.eqb s (LandingBuilderDemo.id b)) eqn:E; [exact I |].
    apply in_map_iff in Hsel as (b' & Hid & Hin).
    apply in_map_iff. exists b'. split; [exact Hid |].
    apply filter_In. split; [exact Hin |]. now rewrite Hid, E.
  - cbn [possibleAction] in Hposs.
    cbn [LandingBuilderDemo.reorder LandingBuilderDemo.selectedBlock
         LandingBuilderDemo.blocks].
    destruct (LandingBuilderDemo.selectedBlock st) as [s |]; [| exact I].
    apply Permutation_in with (map LandingBuilderDemo.id
                                 (LandingBuilderDemo.blocks st));
      [| exact Hsel].
    apply Permutation_map. now symmetry.
Qed.

(** X28.  The selection of the builder never dangles: after any actions
    on the canvas (adding, selecting, editing, deleting and reordering
    blocks), the selected id is empty or the id of a block that is on the
    canvas.  Deleting the selected block clears the selection. *)
Theorem selection_stays_on_canvas (acts : list LandingBuilderDemo.Action) :
  possibleActions LandingBuilderDemo.initialState acts ->
  selectionOnCanvas
    (fold_left LandingBuilderDemo.act acts LandingBuilderDemo.initialState).
Proof.
  assert (H : forall st, selectionOnCanvas st -> possibleActions st acts ->
                selectionOnCanvas (fold_left LandingBuilderDemo.act acts st)).
  { induction acts as [| a acts IH]; intros st Hsel Hposs; [exact Hsel |].
    destruct Hposs as [Ha Hrest]. cbn [fold_left].
    apply IH; [now apply act_keeps_selection_on_canvas | exact Hrest]. }
  apply H. exact I.
Qed.

Lemma selection_stays_on_canvas_witness :
  selectionOnCanvas
    (fold_left LandingBuilderDemo.act
       [ LandingBuilderDemo.ClickBlock 1;
         LandingBuilderDemo.Add "1730541600000" LandingBuilderDemo.cta;
         LandingBuilderDemo.Reorder
           [ LandingBuilderDemo.mkBlock "3" LandingBuilderDemo.cta
               "Get Started Now";
             LandingBuilderDemo.mkBlock "1" LandingBuilderDemo.hero
               "Your Amazing Product";
             LandingBuilderDemo.mkBlock "2" LandingBuilderDemo.text
               "Transform your business with our innovative solution.";
             LandingBuilderDemo.mkBlock "1730541600000" LandingBuilderDemo.cta
               "Button Text" ];
         LandingBuilderDemo.ClickDelete 2 ]
       LandingBuilderDemo.initialState).
Proof.
  apply selection_stays_on_canvas.
  cbn. repeat split.
  apply Permutation_cons_app with (l1 := [_; _]) (l2 := [_]). cbn.
  apply Permutation_refl.
Defined.

(* ------------------------------------------------------------------ *)
(** * Sections stacked without gaps                                    *)
(* ------------------------------------------------------------------ *)

Lemma find_exists {A} (p : A -> bool) (l : list A) (a : A) :
  In a l -> p a = true -> exists b, find p l = Some b.
Proof.
  induction l as [| x l IH]; intros Hin Hp; [destruct Hin |].
  cbn [find]. destruct (p x) eqn:E; [now exists x |].
  destruct Hin as [-> | Hin]; [congruence | now apply IH].
Qed.

Lemma stacked_some_probed (w : Window) (secs : list (string * Q)) :
  forall t : Q,
  secs <> [] ->
  laidOut (document w) t secs ->
  Forall (fun s => 0 <= snd s) secs ->
  t <= 150 -> 150 <= t + totalHeight secs ->
  exists s, In s (map fst secs) /\ probed w s.
Proof.
  induction secs as [| [i h] rest IH]; intros t Hne Hlaid Hh Hlo Hhi;
    [contradiction |].
  destruct Hlaid as [(e & He & Et & Eh) Hrest].
  inversion Hh as [| ? ? Hh0 Hhrest]; subst. cbn [snd] in Hh0.
  cbn [totalHeight fold_right snd] in Hhi.
  destruct (Qlt_le_dec (t + h) 150) as [Hbelow | Hin].
  - destruct rest as [| s rest].
    + cbn in Hhi. lra.
    + destruct (IH (t + h)) as (s' & Hs' & Hp); try assumption.
      * discriminate.
      * lra.
      * unfold totalHeight. lra.
      * exists s'. split; [now right | exact Hp].
  - exists i. split; [now left |].
    exists e. split; [exact He |]. unfold bottom. rewrite Et, Eh.
    split; lra.
Qed.

(** X29.  While the probe line is within a stack of registered sections
    that follow one another without gaps, a scroll evaluation always
    leaves active a section that is mounted and has the probe line within
    it: the highlight is never stale there. *)
Theorem stacked_sections_keep_the_probe_inside (items : list NavItem)
  (secs : list (string * Q)) (w : Window) (t : Q) (st : State) :
  map id items = map fst secs ->
  secs <> [] ->
  laidOut (document w) t secs ->
  Forall (fun s => 0 <= snd s) secs ->
  t <= 150 -> 150 <= t + totalHeight secs ->
  exists st',
    handleScroll items true w st = Normal (tt, st') /\
    probed w (activeSection st').
Proof.
  intros Hids Hne Hlaid Hh Hlo Hhi.
  destruct (stacked_some_probed w secs t Hne Hlaid Hh Hlo Hhi)
    as (s & Hs & Hp).
  rewrite handleScroll_find. eexists. split; [reflexivity |].
  cbn [activeSection]. rewrite Hids.
  apply probedb_true in Hp.
  destruct (find_exists (probedb w) (map fst secs) s Hs Hp) as (s' & F).
  rewrite F. apply find_some in F as [_ F]. now apply probedb_true.
Qed.

Lemma stacked_sections_keep_the_probe_inside_witness :
  exists st',
    handleScroll itemsABC true (stacked 700) (mkState false "A")
      = Normal (tt, st') /\
    probed (stacked 700) (activeSection st').
Proof.
  apply (stacked_sections_keep_the_probe_inside itemsABC
           [("A", 800); ("B", 800); ("C", 800)] (stacked 700) (-700)).
  - reflexivity.
  - discriminate.
  - cbn. repeat split; eexists; (split; [reflexivity | split; reflexivity]).
  - repeat constructor; discriminate.
  - discriminate.
  - discriminate.
Defined.

(* ------------------------------------------------------------------ *)
(** * App.jsx: the earlier tracker                                     *)
(* ------------------------------------------------------------------ *)

Lemma legacy_contains (e : LegacyApp.Element) (p : Q) :
  LegacyApp.contains e p = true <->
  inject_Z (LegacyApp.offsetTop e) <= p /\
  p < inject_Z (LegacyApp.offsetTop e + LegacyApp.offsetHeight e).
Proof.
  unfold LegacyApp.contains.
  rewrite andb_true_iff, negb_true_iff, Qle_bool_iff. split.
  - intros [H1 H2]. split; [exact H1 | now apply Qle_bool_false].
  - intros [H1 H2]. split; [exact H1 |].
    destruct (Qle_bool _ p) eqn:E; [| reflexivity].
    apply Qle_bool_iff in E. lra.
Qed.

Lemma legacy_forOfSections_cons (doc : list LegacyApp.Element) (p : Q)
  (s : string) (rest : list string) (a : string) :
  LegacyApp.forOfSections doc p (s :: rest) a =
  match LegacyApp.getElementById doc s with
  | Some e => if LegacyApp.contains e p then Normal (tt, s)
              else LegacyApp.forOfSections doc p rest a
  | None => LegacyApp.forOfSections doc p rest a
  end.
Proof.
  cbn [LegacyApp.forOfSections].
  destruct (LegacyApp.getElementById doc s) as [e |]; cbn; [| reflexivity].
  now destruct (LegacyApp.contains e p).
Qed.

Lemma legacy_stacked (doc : list LegacyApp.Element) (p : Q)
  (secs : list (string * Z)) (a : string) :
  forall t : Z,
  laidOutZ doc t secs ->
  Forall (fun s => (0 < snd s)%Z) secs ->
  inject_Z t <= p -> p < inject_Z (t + totalHeightZ secs) ->
  exists s e,
    LegacyApp.forOfSections doc p (map fst secs) a = Normal (tt, s) /\
    LegacyApp.getElementById doc s = Some e /\
    LegacyApp.contains e p = true.
Proof.
  induction secs as [| [i h] rest IH]; intros t Hlaid Hh Hlo Hhi.
  - cbn in Hhi. rewrite Z.add_0_r in Hhi. lra.
  - destruct Hlaid as [He Hrest].
    inversion Hh as [| ? ? Hh0 Hhrest]; subst. cbn [snd] in Hh0.
    cbn [totalHeightZ fold_right snd] in Hhi.
    cbn [map fst]. rewrite legacy_forOfSections_cons, He.
    destruct (LegacyApp.contains (LegacyApp.mkElement i t h) p) eqn:C.
    + exists i, (LegacyApp.mkElement i t h). auto.
    + apply (IH (t + h)%Z); try assumption.
      * destruct (Qlt_le_dec p (inject_Z (t + h))) as [Hlt | Hge];
          [| exact Hge].
        exfalso. assert (C' : LegacyApp.contains
                                (LegacyApp.mkElement i t h) p = true)
          by (apply legacy_contains; cbn; split; assumption).
        congruence.
      * unfold totalHeightZ. now rewrite Z.add_assoc in Hhi.
Qed.

(** X30.  In the earlier tracker the test is half open.  When its six
    sections follow one another without gaps, each with a positive height,
    every scroll position from the top of the first to the bottom of the
    last makes active the section that holds the line 100 pixels below the
    top of the viewport. *)
Theorem legacy_tracker_follows_stacked_sections
  (doc : list LegacyApp.Element) (heights : list Z) (t : Z) (scrollY : Q)
  (a : string) :
  length heights = 6%nat ->
  laidOutZ doc t (combine LegacyApp.sections heights) ->
  Forall (fun h => (0 < h)%Z) heights ->
  inject_Z t <= scrollY + 100 ->
  scrollY + 100
  < inject_Z (t + totalHeightZ (combine LegacyApp.sections heights)) ->
  exists s e,
    LegacyApp.handleScroll scrollY doc a = Normal (tt, s) /\
    LegacyApp.getElementById doc s = Some e /\
    inject_Z (LegacyApp.offsetTop e) <= scrollY + 100 /\
    scrollY + 100
    < inject_Z (LegacyApp.offsetTop e + LegacyApp.offsetHeight e).
Proof.
  intros Hlen Hlaid Hh Hlo Hhi.
  assert (Hfst : map fst (combine LegacyApp.sections heights)
                 = LegacyApp.sections).
  { do 6 (destruct heights as [| ? heights]; [discriminate Hlen |]).
    destruct heights; [reflexivity | discriminate Hlen]. }
  assert (Hpos : Forall (fun s : string * Z => (0 < snd s)%Z)
                   (combine LegacyApp.sections heights)).
  { apply Forall_forall. intros [i h] Hin. cbn [snd].
    apply in_combine_r in Hin.
    now apply (proj1 (Forall_forall _ _) Hh). }
  destruct (legacy_stacked doc (scrollY + 100) _ a t Hlaid Hpos Hlo Hhi)
    as (s & e & E & He & Hc).
  exists s, e. unfold LegacyApp.handleScroll. rewrite <- Hfst.
  split; [exact E |]. split; [exact He |]. now apply legacy_contains.
Qed.

Lemma legacy_tracker_follows_stacked_sections_witness :
  exists s e,
    LegacyApp.handleScroll 2600 legacyPage "hero" = Normal (tt, s) /\
    LegacyApp.getElementById legacyPage s = Some e /\
    inject_Z (LegacyApp.offsetTop e) <= 2600 + 100 /\
    2600 + 100
    < inject_Z (LegacyApp.offsetTop e + LegacyApp.offsetHeight e).
Proof.
  apply (legacy_tracker_follows_stacked_sections legacyPage
           [900; 900; 900; 900; 900; 900]%Z 0%Z 2600 "hero").
  - reflexivity.
  - cbn. repeat split.
  - repeat constructor.
  - discriminate.
  - reflexivity.
Defined.
